(** * Student score summaries: the imperative and the functional script

    A shallow embedding of [src/1_imperative_summarize.py] and
    [src/2_fp_summarize.py].  Both scripts read the same table of rows
    (Name, Class, Subject, Score), grade every row and average the scores
    overall, per class and per subject.

    - Python floats are IEEE 754 binary64 numbers: they are modelled by
      Rocq's primitive floats, whose operations are the same binary64
      operations (round to nearest, ties to even).
    - Python exceptions are modelled by the [result] type below.
    - Python text is a [string]: the bytes of its UTF-8 encoding.
    - Dictionaries keyed by class or subject are [gmap string _].
    - The table handed over by [pd.read_csv] is the input of the model: a list
      of rows whose Score cell is text, a float, an integer or [None].
    - The operations of the table library that the functional script calls
      ([apply], [assign], [notna], [groupby]) are modelled in the module
      [Pandas]; the library's [mean] is a parameter of the functional script,
      since its order of summation is the library's own.

    The file has four parts: the embedding of the two scripts, the
    vocabulary in which the properties are stated, the lemmas about the loop
    and the tables, and the claims C1 to C10 in order. *)

From Stdlib Require Import ZArith Floats Ascii String List Permutation Lia Bool.
From stdpp Require Import gmap strings list fin_maps.

Local Open Scope Z_scope.

(** ** Exceptions *)

Inductive exn : Set :=
  | ValueError
  | TypeError
  | OverflowError
  | NameError
  | KeyError
  | ZeroDivisionError.

Inductive result (A : Type) : Type :=
  | Ok (a : A)
  | Raise (e : exn).

Arguments Ok {A} a.
Arguments Raise {A} e.

#[global] Instance result_ret : MRet result := fun A a => Ok a.

#[global] Instance result_bind : MBind result := fun A B k r =>
  match r with
  | Ok a => k a
  | Raise e => Raise e
  end.

Definition succeeds {A : Type} (r : result A) : Prop := exists a, r = Ok a.

(** ** The builtin [float]

    [float(x)] is a builtin of the language, not code of the repository.  It
    is modelled after the language reference and the interpreter: a float is
    returned as it is, an integer is rounded to the nearest float
    (OverflowError when it is beyond the float range), [None] raises
    TypeError, and text is parsed by the grammar

      floatvalue ::= [sign] (floatnumber | "inf" | "infinity" | "nan")
      floatnumber ::= ([digitpart] "." digitpart | digitpart ["."]) [exponent]
      digitpart ::= digit (["_"] digit)*
      exponent ::= ("e" | "E") [sign] digitpart

    after leading and trailing whitespace is removed, letters read without
    regard to case, the value rounded to the nearest float.  Text outside
    the grammar raises ValueError.

    Text is any Unicode text.  Before it is parsed, every whitespace
    character beyond ASCII is replaced by a space and every decimal digit
    of another script by the ASCII digit of its value; any other character
    beyond ASCII makes the text invalid.  The whitespace that is then
    removed around the number is the ASCII whitespace of C: the characters
    9 to 13 and the space, and not the separators 28 to 31. *)

Module PyFloat.

(** *** The characters of a text

    A [string] holds the UTF-8 bytes of a text.  [decode] gives its
    characters as code points; a byte that begins no well-formed sequence
    stands for the lone surrogate U+DC00 + byte, as in the interpreter's
    [surrogateescape] decoding. *)

Definition continuation (b : N) : bool := ((128 <=? b) && (b <=? 191))%N.

Definition two_bytes (b0 b1 : N) : option N :=
  if ((194 <=? b0) && (b0 <=? 223))%N && continuation b1
  then Some ((b0 - 192) * 64 + (b1 - 128))%N
  else None.

Definition three_bytes (b0 b1 b2 : N) : option N :=
  let c := ((b0 - 224) * 4096 + (b1 - 128) * 64 + (b2 - 128))%N in
  if ((224 <=? b0) && (b0 <=? 239))%N && continuation b1 && continuation b2
     && (2048 <=? c)%N && negb ((55296 <=? c) && (c <=? 57343))%N
  then Some c
  else None.

Definition four_bytes (b0 b1 b2 b3 : N) : option N :=
  let c := ((b0 - 240) * 262144 + (b1 - 128) * 4096
            + (b2 - 128) * 64 + (b3 - 128))%N in
  if ((240 <=? b0) && (b0 <=? 244))%N && continuation b1 && continuation b2
     && continuation b3 && ((65536 <=? c) && (c <=? 1114111))%N
  then Some c
  else None.

Definition surrogateescape (b : N) : N := (56320 + b)%N.

Fixpoint decode (s : list ascii) : list N :=
  match s with
  | [] => []
  | a0 :: s1 =>
      let b0 := N_of_ascii a0 in
      if (b0 <? 128)%N then b0 :: decode s1
      else
        match s1 with
        | a1 :: s2 =>
            let b1 := N_of_ascii a1 in
            match two_bytes b0 b1 with
            | Some c => c :: decode s2
            | None =>
                match s2 with
                | a2 :: s3 =>
                    let b2 := N_of_ascii a2 in
                    match three_bytes b0 b1 b2 with
                    | Some c => c :: decode s3
                    | None =>
                        match s3 with
                        | a3 :: s4 =>
                            match four_bytes b0 b1 b2 (N_of_ascii a3) with
                            | Some c => c :: decode s4
                            | None => surrogateescape b0 :: decode s1
                            end
                        | [] => surrogateescape b0 :: decode s1
                        end
                    end
                | [] => surrogateescape b0 :: decode s1
                end
            end
        | [] => surrogateescape b0 :: decode s1
        end
  end.

(** *** Whitespace and decimal digits beyond ASCII

    [float] reads a character that is whitespace as a space and a decimal
    digit of any script as the ASCII digit of its value. *)

(** The whitespace characters from U+007F on. *)
Definition unicode_isspace (c : N) : bool :=
  ((c =? 133) || (c =? 160) || (c =? 5760) || ((8192 <=? c) && (c <=? 8202))
   || (c =? 8232) || (c =? 8233) || (c =? 8239) || (c =? 8287)
   || (c =? 12288))%N.

(** The digit zero of every run of ten decimal digits from U+007F on
    (Unicode 14.0, the character database of CPython 3.11). *)
Definition decimal_zeros : list N :=
  [1632; 1776; 1984; 2406; 2534; 2662; 2790; 2918; 3046; 3174; 3302; 3430;
   3558; 3664; 3792; 3872; 4160; 4240; 6112; 6160; 6470; 6608; 6784; 6800;
   6992; 7088; 7232; 7248; 42528; 43216; 43264; 43472; 43504; 43600; 44016;
   65296; 66720; 68912; 69734; 69872; 69942; 70096; 70384; 70736; 70864;
   71248; 71360; 71472; 71904; 72016; 72784; 73040; 73120; 92768; 92864;
   93008; 120782; 120792; 120802; 120812; 120822; 123200; 123632; 125264;
   130032]%N.

Definition unicode_todecimal (c : N) : option N :=
  match List.find (fun z => (z <=? c) && (c <? z + 10))%N decimal_zeros with
  | Some z => Some (c - z)%N
  | None => None
  end.

(** The text as ASCII: a character below U+007F is kept, whitespace becomes
    a space, a decimal digit its ASCII digit, and the text ends with a
    question mark at the first character that is none of these. *)
Fixpoint transform_decimal_and_space_to_ascii (cs : list N) : list ascii :=
  match cs with
  | [] => []
  | c :: cs' =>
      if (c <? 127)%N then
        ascii_of_N c :: transform_decimal_and_space_to_ascii cs'
      else if unicode_isspace c then
        " "%char :: transform_decimal_and_space_to_ascii cs'
      else
        match unicode_todecimal c with
        | Some d => ascii_of_N (48 + d) :: transform_decimal_and_space_to_ascii cs'
        | None => ["?"%char]
        end
  end.

(** *** The ASCII text of a float *)

(** The whitespace that is skipped before and after the number: tab, line
    feed, vertical tab, form feed, carriage return and space. *)
Definition is_space (c : ascii) : bool :=
  let n := N_of_ascii c in
  (((9 <=? n) && (n <=? 13)) || (n =? 32))%N.

Definition is_digit (c : ascii) : bool :=
  let n := N_of_ascii c in ((48 <=? n) && (n <=? 57))%N.

Definition digit_value (c : ascii) : Z := Z.of_N (N_of_ascii c) - 48.

Definition lower (c : ascii) : ascii :=
  let n := N_of_ascii c in
  if ((65 <=? n) && (n <=? 90))%N then ascii_of_N (n + 32) else c.

Fixpoint lstrip (s : list ascii) : list ascii :=
  match s with
  | c :: s' => if is_space c then lstrip s' else s
  | [] => []
  end.

Definition strip (s : list ascii) : list ascii :=
  rev (lstrip (rev (lstrip s))).

(** The digits after the first one of a digitpart: the value read so far,
    the number of digits read so far, and the text left. *)
Fixpoint digits_rest (s : list ascii) (acc : Z) (n : Z) : Z * Z * list ascii :=
  match s with
  | c :: s' =>
      if is_digit c then digits_rest s' (10 * acc + digit_value c) (n + 1)
      else if Ascii.eqb c "_" then
        match s' with
        | d :: s'' =>
            if is_digit d then digits_rest s'' (10 * acc + digit_value d) (n + 1)
            else (acc, n, s)
        | [] => (acc, n, s)
        end
      else (acc, n, s)
  | [] => (acc, n, s)
  end.

(** A digitpart continuing the digits [acc] read before it, if there is one. *)
Definition digitpart (s : list ascii) (acc : Z) : option (Z * Z * list ascii) :=
  match s with
  | c :: s' =>
      if is_digit c then Some (digits_rest s' (10 * acc + digit_value c) 1)
      else None
  | [] => None
  end.

Definition sign (s : list ascii) : bool * list ascii :=
  match s with
  | c :: s' =>
      if Ascii.eqb c "-" then (true, s')
      else if Ascii.eqb c "+" then (false, s')
      else (false, s)
  | [] => (false, s)
  end.

(** The digits of a floatnumber as an integer [m] and a power of ten [e]:
    the number is [m * 10 ^ e]. *)
Definition exponent (s : list ascii) (m e : Z) : option (Z * Z) :=
  match s with
  | [] => Some (m, e)
  | c :: s' =>
      if Ascii.eqb (lower c) "e" then
        let '(neg, s'') := sign s' in
        match digitpart s'' 0 with
        | Some (x, _, []) => Some (m, e + (if neg then - x else x))
        | _ => None
        end
      else None
  end.

Definition floatnumber (s : list ascii) : option (Z * Z) :=
  match digitpart s 0 with
  | Some (i, _, rest) =>
      match rest with
      | c :: rest' =>
          if Ascii.eqb c "." then
            match digitpart rest' i with
            | Some (m, n, rest'') => exponent rest'' m (- n)
            | None => exponent rest' i 0
            end
          else exponent rest i 0
      | [] => Some (i, 0)
      end
  | None =>
      match s with
      | c :: rest =>
          if Ascii.eqb c "." then
            match digitpart rest 0 with
            | Some (m, n, rest') => exponent rest' m (- n)
            | None => None
            end
          else None
      | [] => None
      end
  end.

(** [m * 10 ^ e] rounded to the nearest binary64 number, ties to even. *)
Definition round_decimal (neg : bool) (m e : Z) : spec_float :=
  match m with
  | Zpos p =>
      if 0 <=? e then binary_round prec emax neg (p * Z.to_pos (10 ^ e)) 0
      else
        let '(q, e', l) := SFdiv_core_binary prec emax m 0 (10 ^ (- e)) 0 in
        binary_round_aux prec emax neg q e' l
  | _ => S754_zero neg
  end.

(** The float of an ASCII text. *)
Definition float_from_string_inner (s : list ascii) : option float :=
  let '(neg, body) := sign (strip s) in
  let word := String.string_of_list_ascii (List.map lower body) in
  if (String.eqb word "inf" || String.eqb word "infinity")%bool then
    Some (if neg then neg_infinity else infinity)
  else if String.eqb word "nan" then Some nan
  else
    match floatnumber body with
    | Some (m, e) => Some (SF2Prim (round_decimal neg m e))
    | None => None
    end.

Definition of_chars (s : list ascii) : option float :=
  float_from_string_inner (transform_decimal_and_space_to_ascii (decode s)).

Definition of_string (s : string) : option float :=
  of_chars (String.list_ascii_of_string s).

(** An integer rounded to the nearest float. *)
Definition of_Z (z : Z) : float :=
  SF2Prim (binary_normalize prec emax z 0 false).

(** The least magnitude that rounds beyond the largest float. *)
Definition overflow_bound : Z := 2 ^ 1024 - 2 ^ 970.

End PyFloat.

(** A cell of the Score column as the scripts receive it. *)
Inductive cell : Type :=
  | Str (s : string)
  | Float (f : float)
  | Int (z : Z)
  | PyNone.

Definition py_float (x : cell) : result float :=
  match x with
  | Str s =>
      match PyFloat.of_string s with
      | Some v => Ok v
      | None => Raise ValueError
      end
  | Float f => Ok f
  | Int z =>
      if Z.abs z <? PyFloat.overflow_bound then Ok (PyFloat.of_Z z)
      else Raise OverflowError
  | PyNone => Raise TypeError
  end.


(** ** Rows and graded records *)

(** A row of the table, with the names the imperative loop gives to its
    four fields. *)
Record row : Type := Row {
  name : string;
  student_class : string;
  subject : string;
  score_str : cell;
}.

(** A graded record: a row with its Score and its Grade.  The Score is a
    Python value that is either [None] or a float. *)
Record graded : Type := Graded {
  Name : string;
  Class_ : string;
  Subject : string;
  Score : option float;
  Grade : string;
}.

(** The results both scripts print. *)
Record summary : Type := Summary {
  overall_average : float;
  class_averages : gmap string float;
  subject_averages : gmap string float;
  valid_count : Z;
  total_count : Z;
}.

Definition invalid_count (s : summary) : Z := total_count s - valid_count s.

Definition len {A : Type} (l : list A) : Z := Z.of_nat (length l).

(** [d[key]] *)
Definition getitem {V : Type} (d : gmap string V) (key : string) : result V :=
  match d !! key with
  | Some v => Ok v
  | None => Raise KeyError
  end.

(** [x / n] for a float [x] and an integer [n], which is converted to a
    float first.  The scripts divide by counts of rows only, and the
    conversion of a count is taken not to overflow. *)
Definition truediv (x : float) (n : Z) : result float :=
  if n =? 0 then Raise ZeroDivisionError
  else Ok (x / PyFloat.of_Z n)%float.

(** ** The functional script, [2_fp_summarize.py] *)

Definition clean_score (score_value : cell) : result (option float) :=
  match py_float score_value with
  | Ok v => Ok (Some v)
  | Raise ValueError | Raise TypeError => Ok None
  | Raise e => Raise e
  end.

Definition calculate_grade (score : option float) : string :=
  match score with
  | None => "Error"
  | Some score =>
      if (90 <=? score)%float then "A"
      else if (80 <=? score)%float then "B"
      else if (70 <=? score)%float then "C"
      else if (60 <=? score)%float then "D"
      else "F"
  end.

Module Pandas.

(** [Series.apply(f)]: [f] is called on every value in turn, and an exception
    of [f] ends the call. *)
Fixpoint apply {A B : Type} (f : A -> result B) (xs : list A) : result (list B) :=
  match xs with
  | [] => Ok []
  | x :: xs' => y ← f x; ys ← apply f xs'; Ok (y :: ys)
  end.

(** [Series.apply] then builds a Series from the values, inferring its type:
    when the values are floats and [None], and one of them at least is a
    float, the Series is a float64 one and holds NaN where [f] returned
    [None]; values that are all [None] are kept as they are. *)
Definition infer_objects (xs : list (option float)) : list (option float) :=
  if existsb (fun x => bool_decide (is_Some x)) xs
  then List.map (fun x => Some (default nan x)) xs
  else xs.

(** [Series.notna()]: neither [None] nor NaN. *)
Definition notna (x : option float) : bool :=
  match x with
  | None => false
  | Some v => negb (is_nan v)
  end.

(** [df.assign(Score=..., Grade=...)] *)
Fixpoint assign (df : list row) (Score : list (option float)) (Grade : list string)
  : list graded :=
  match df, Score, Grade with
  | r :: df', s :: Score', g :: Grade' =>
      Graded (name r) (student_class r) (subject r) s g :: assign df' Score' Grade'
  | _, _, _ => []
  end.

(** [df.groupby(group_column)["Score"]]: the Score values of every group, in
    the order of the rows. *)
Definition groupby (group_column : graded -> string) (df : list graded)
  : gmap string (list (option float)) :=
  fold_left
    (fun groups r =>
       <[group_column r := default [] (groups !! group_column r) ++ [Score r]]> groups)
    df ∅.

End Pandas.

Module Functional.

Definition add_grade_column (student_df : list row) : result (list graded) :=
  Score ← Pandas.apply clean_score (score_str <$> student_df);
  cleaned ← Pandas.apply clean_score (score_str <$> student_df);
  Grade ← Pandas.apply (fun x => Ok (calculate_grade x)) (Pandas.infer_objects cleaned);
  Ok (Pandas.assign student_df (Pandas.infer_objects Score) Grade).

Definition filter_valid_scores (student_df : list graded) : list graded :=
  List.filter (fun r => Pandas.notna (Score r)) student_df.

Section Mean.

(** [Series.mean()] is the library's: the arithmetic mean of a column, whose
    order of summation and rounding are the library's own.  It is a parameter
    of the model. *)
Variable series_mean : list (option float) -> float.

Definition calculate_group_average (student_df : list graded)
    (group_column : graded -> string) : gmap string float :=
  series_mean <$> Pandas.groupby group_column student_df.

Record results : Type := Results {
  processed_data : list graded;
  stats : summary;
}.

Definition pipeline_processing (file : list row) : result results :=
  processed_df ← add_grade_column file;
  let valid_scores_df := filter_valid_scores processed_df in
  let overall_avg := series_mean (Score <$> valid_scores_df) in
  let class_avgs := calculate_group_average valid_scores_df Class_ in
  let subject_avgs := calculate_group_average valid_scores_df Subject in
  Ok {| processed_data := processed_df;
        stats := {| overall_average := overall_avg;
                    class_averages := class_avgs;
                    subject_averages := subject_avgs;
                    valid_count := len valid_scores_df;
                    total_count := len processed_df |} |}.

End Mean.

End Functional.

(** ** The imperative script, [1_imperative_summarize.py] *)

Module Imperative.

(** The variables of the script that live across the iterations of the loop.
    [score] is [None] as long as the variable is not bound. *)
Record state : Type := State {
  students_data : list graded;
  class_totals : gmap string float;
  class_counts : gmap string Z;
  subject_totals : gmap string float;
  subject_counts : gmap string Z;
  overall_total : float;
  overall_count : Z;
  score : option float;
}.

(** The totals start as the integer 0, which the first [+=] turns into the
    float 0.0 before it adds; the model holds 0.0 from the start. *)
Definition init : state :=
  {| students_data := []; class_totals := ∅; class_counts := ∅;
     subject_totals := ∅; subject_counts := ∅;
     overall_total := 0; overall_count := 0; score := None |}.

(** Reading a variable that may not be bound. *)
Definition load {A : Type} (var : option A) : result A :=
  match var with
  | Some v => Ok v
  | None => Raise NameError
  end.

(** Lines 52-56: the conversion; the binding of [score] and
    [is_valid_score] after it. *)
Definition convert (score : option float) (score_str : cell)
  : result (option float * bool) :=
  match py_float score_str with
  | Ok v => Ok (Some v, true)
  | Raise ValueError => Ok (score, false)
  | Raise e => Raise e
  end.

(** Lines 59-71. *)
Definition grade_of (score : option float) (is_valid_score : bool) : result string :=
  if is_valid_score then
    score ← load score;
    Ok (if (90 <=? score)%float then "A"
        else if (80 <=? score)%float then "B"
        else if (70 <=? score)%float then "C"
        else if (60 <=? score)%float then "D"
        else "F")
  else Ok "Error".

(** Lines 90-94 and 97-101: one group's total and count. *)
Definition update_group (key : string) (score : float)
    (totals : gmap string float) (counts : gmap string Z)
  : result (gmap string float * gmap string Z) :=
  let '(totals, counts) :=
    match totals !! key with
    | None => (<[key := 0%float]> totals, <[key := 0]> counts)
    | Some _ => (totals, counts)
    end in
  t ← getitem totals key;
  let totals := <[key := (t + score)%float]> totals in
  c ← getitem counts key;
  let counts := <[key := c + 1]> counts in
  Ok (totals, counts).

(** Lines 84-101. *)
Definition update_statistics (st : state) (student_class subject : string)
    (score : option float) (is_valid_score : bool) : result state :=
  if is_valid_score then
    v ← load score;
    let overall_total := (overall_total st + v)%float in
    let overall_count := overall_count st + 1 in
    '(class_totals, class_counts) ←
      update_group student_class v (class_totals st) (class_counts st);
    '(subject_totals, subject_counts) ←
      update_group subject v (subject_totals st) (subject_counts st);
    Ok {| students_data := students_data st;
          class_totals := class_totals; class_counts := class_counts;
          subject_totals := subject_totals; subject_counts := subject_counts;
          overall_total := overall_total; overall_count := overall_count;
          score := score |}
  else
    Ok {| students_data := students_data st;
          class_totals := class_totals st; class_counts := class_counts st;
          subject_totals := subject_totals st; subject_counts := subject_counts st;
          overall_total := overall_total st; overall_count := overall_count st;
          score := score |}.

(** The body of the loop, lines 45-101. *)
Definition step (st : state) (r : row) : result state :=
  '(score, is_valid_score) ← convert (score st) (score_str r);
  grade ← grade_of score is_valid_score;
  v ← load score;
  let student_record :=
    {| Name := name r; Class_ := student_class r; Subject := subject r;
       Score := Some v; Grade := grade |} in
  let st := {| students_data := students_data st ++ [student_record];
               class_totals := class_totals st; class_counts := class_counts st;
               subject_totals := subject_totals st; subject_counts := subject_counts st;
               overall_total := overall_total st; overall_count := overall_count st;
               score := score |} in
  update_statistics st (student_class r) (subject r) score is_valid_score.

(** The loop, lines 44-101. *)
Fixpoint loop (st : state) (df : list row) : result state :=
  match df with
  | [] => Ok st
  | r :: df' => st' ← step st r; loop st' df'
  end.

(** Lines 106-112: the average of every group that has a total. *)
Definition averages (totals : gmap string float) (counts : gmap string Z)
  : result (gmap string float) :=
  map_fold
    (fun key total acc =>
       avgs ← acc;
       count ← getitem counts key;
       avg ← truediv total count;
       Ok (<[key := avg]> avgs))
    (Ok ∅) totals.

(** Lines 104-119. *)
Definition summarize (df : list row) (st : state) : result summary :=
  overall_average ←
    (if overall_count st >? 0 then truediv (overall_total st) (overall_count st)
     else Ok 0%float);
  class_averages ← averages (class_totals st) (class_counts st);
  subject_averages ← averages (subject_totals st) (subject_counts st);
  Ok {| overall_average := overall_average;
        class_averages := class_averages;
        subject_averages := subject_averages;
        valid_count := overall_count st;
        total_count := len df |}.

Definition main (df : list row) : result (list graded * summary) :=
  st ← loop init df;
  s ← summarize df st;
  Ok (students_data st, s).

End Imperative.

(** * Vocabulary of the properties *)

(** The two rows of the sample input in the header of both scripts. *)
Definition alice : row := Row "Alice" "A02" "Science" (Str "90").
Definition bob : row := Row "Bob" "A01" "English" (Str "SomeError").

(** An integer is within the float range when [float] can round it; every
    integer of 64 bits is. *)
Definition in_float_range (x : cell) : Prop :=
  match x with
  | Int z => Z.abs z < PyFloat.overflow_bound
  | _ => True
  end.

(** The float of the last row of [df] that [float] converted, [prev] when
    there is none. *)
Fixpoint last_converted (df : list row) (prev : option float) : option float :=
  match df with
  | [] => prev
  | r :: df' =>
      last_converted df'
        (match py_float (score_str r) with Ok v => Some v | Raise _ => prev end)
  end.

Import Imperative.

(** The float that [float] converts the score of a row to, if it does. *)
Definition converted (r : row) : option float :=
  match py_float (score_str r) with
  | Ok v => Some v
  | Raise _ => None
  end.

(** The converted scores of the rows of [df] that [sel] selects, in the
    order of the rows. *)
Fixpoint scores_where (sel : row -> bool) (df : list row) : list float :=
  match df with
  | [] => []
  | r :: df' =>
      match converted r with
      | Some v => if sel r then v :: scores_where sel df' else scores_where sel df'
      | None => scores_where sel df'
      end
  end.

Definition everyone (r : row) : bool := true.

Definition in_group (column : row -> string) (key : string) (r : row) : bool :=
  bool_decide (column r = key).

(** The scores [l] added one by one to [start], from the left. *)
Definition fsum (start : float) (l : list float) : float :=
  fold_left PrimFloat.add l start.

(** An entry of a dictionary of totals, and of counts, after the scores [l]
    of its group were added to it. *)
Definition group_total (old : option float) (l : list float) : option float :=
  match l with
  | [] => old
  | _ => Some (fsum (default 0%float old) l)
  end.

Definition group_count (old : option Z) (l : list float) : option Z :=
  match l with
  | [] => old
  | _ => Some (default 0 old + len l)
  end.

(** The dictionaries of totals and of counts hold the same keys, and the
    counts are positive. *)
Definition paired (totals : gmap string float) (counts : gmap string Z) : Prop :=
  forall k,
    match totals !! k, counts !! k with
    | Some _, Some c => 0 < c
    | None, None => True
    | _, _ => False
    end.

Definition consistent (st : state) : Prop :=
  paired (class_totals st) (class_counts st)
  /\ paired (subject_totals st) (subject_counts st)
  /\ 0 <= overall_count st.

(** What a run of the loop over [df] adds to the statistics of [st0]. *)
Definition accumulated (st0 st : state) (df : list row) : Prop :=
  overall_total st = fsum (overall_total st0) (scores_where everyone df)
  /\ overall_count st = overall_count st0 + len (scores_where everyone df)
  /\ (forall k, class_totals st !! k
        = group_total (class_totals st0 !! k)
            (scores_where (in_group student_class k) df))
  /\ (forall k, class_counts st !! k
        = group_count (class_counts st0 !! k)
            (scores_where (in_group student_class k) df))
  /\ (forall k, subject_totals st !! k
        = group_total (subject_totals st0 !! k)
            (scores_where (in_group subject k) df))
  /\ (forall k, subject_counts st !! k
        = group_count (subject_counts st0 !! k)
            (scores_where (in_group subject k) df)).

(** A step succeeds exactly when [float] converts the score, or raises
    ValueError while [score] is bound. *)
Definition step_defined (st : state) (r : row) : Prop :=
  is_Some (converted r)
  \/ (py_float (score_str r) = Raise ValueError /\ is_Some (score st)).

(** The mean of a group, from its entries in the two dictionaries. *)
Definition group_mean (total : option float) (count : option Z) : option float :=
  match total, count with
  | Some t, Some c => Some (t / PyFloat.of_Z c)%float
  | _, _ => None
  end.

(** The Score values of the rows of a group, added to the group [old]. *)
Definition group_values (old : option (list (option float)))
    (l : list (option float)) : option (list (option float)) :=
  match l with
  | [] => old
  | _ => Some (default [] old ++ l)
  end.

Definition in_column (column : graded -> string) (key : string) (g : graded) : bool :=
  bool_decide (column g = key).

(** What [infer_objects] does to the values of a column: it turns [None] into
    NaN when the column holds a float, and changes nothing otherwise. *)
Definition inferred (column : list (option float)) (x : option float) : option float :=
  if existsb (fun x => bool_decide (is_Some x)) column
  then Some (default nan x)
  else x.

(** The graded record of a row in the table of the functional script. *)
Definition processed (df : list row) (r : row) : graded :=
  let score := inferred (converted <$> df) (converted r) in
  Graded (name r) (student_class r) (subject r) score (calculate_grade score).

(** The graded record of a row whose score is kept by [filter_valid_scores]. *)
Definition valid_record (r : row) : option graded :=
  match converted r with
  | Some v =>
      if is_nan v then None
      else Some (Graded (name r) (student_class r) (subject r) (Some v)
                   (calculate_grade (Some v)))
  | None => None
  end.

(** The converted scores that are not NaN. *)
Definition valid_scores (sel : row -> bool) (df : list row) : list float :=
  List.filter (fun v => negb (is_nan v)) (scores_where sel df).

(** The scenario of the specification: two valid scores of class A, an
    invalid one of class B. *)
Definition scenario : list row :=
  [Row "Ann" "A" "Science" (Str "90"); Row "Ben" "A" "Science" (Str "80");
   Row "Cy" "B" "English" (Str "bad")].

(** The tables on which the loop completes, given whether [score] is bound
    when it starts: [float] converts every score or raises ValueError, and it
    raises ValueError only once [score] is bound. *)
Fixpoint loop_defined (bound : bool) (df : list row) : Prop :=
  match df with
  | [] => True
  | r :: df' =>
      match py_float (score_str r) with
      | Ok _ => loop_defined true df'
      | Raise ValueError => bound = true /\ loop_defined bound df'
      | Raise _ => False
      end
  end.

Definition is_bound (st : state) : bool := bool_decide (is_Some (score st)).


(** The mean that adds from the left. *)
Definition mean_from_left (column : list (option float)) : float :=
  (fsum 0 (default nan <$> column) / PyFloat.of_Z (len column))%float.

(** Three scores whose float sum depends on the order of the additions:
    (0.1 + 0.2) + 0.3 is 0.6000000000000001 and (0.3 + 0.2) + 0.1 is 0.6. *)
Definition tenths : list row :=
  [Row "Ann" "A" "Science" (Str "0.1"); Row "Ben" "A" "Science" (Str "0.2");
   Row "Cy" "A" "Science" (Str "0.3")].

(** The float sums of the scores overall, of every class and of every
    subject are the same in the two orders. *)
Definition sums_agree (df df' : list row) : Prop :=
  fsum 0 (scores_where everyone df) = fsum 0 (scores_where everyone df')
  /\ (forall k, fsum 0 (scores_where (in_group student_class k) df)
               = fsum 0 (scores_where (in_group student_class k) df'))
  /\ (forall k, fsum 0 (scores_where (in_group subject k) df)
               = fsum 0 (scores_where (in_group subject k) df')).

(** An accumulator: the running sum and the count of a group. *)
Record accumulator : Type := Accumulator {
  acc_sum : float;
  acc_count : Z;
}.

(** An aggregation: the accumulators overall, of every class and of every
    subject, and the valid and invalid counts. *)
Record aggregation : Type := Aggregation {
  overall : accumulator;
  by_class : gmap string accumulator;
  by_subject : gmap string accumulator;
  valid : Z;
  invalid : Z;
}.

(** The aggregation that the loop holds in its variables after the rows
    [df]. *)
Definition aggregation_of (df : list row) (st : state) : aggregation :=
  {| overall := Accumulator (overall_total st) (overall_count st);
     by_class := map_zip_with Accumulator (class_totals st) (class_counts st);
     by_subject := map_zip_with Accumulator (subject_totals st) (subject_counts st);
     valid := overall_count st;
     invalid := len df - overall_count st |}.

(** Modelled from the spec: the merge of two aggregations adds the sums and
    the counts of every group pairwise, the overall accumulator and the
    valid and invalid counts included.  The scripts have no such function;
    the three definitions below follow the words of the specification. *)
Definition merge_accumulators (a b : accumulator) : accumulator :=
  Accumulator (acc_sum a + acc_sum b) (acc_count a + acc_count b).

(** Modelled from the spec: the merge of the accumulators of two sets of
    groups; a group of one set only keeps its accumulator. *)
Definition merge_groups (a b : gmap string accumulator) : gmap string accumulator :=
  union_with (fun x y => Some (merge_accumulators x y)) a b.

(** Modelled from the spec: the merge of two aggregations. *)
Definition merge (a b : aggregation) : aggregation :=
  {| overall := merge_accumulators (overall a) (overall b);
     by_class := merge_groups (by_class a) (by_class b);
     by_subject := merge_groups (by_subject a) (by_subject b);
     valid := valid a + valid b;
     invalid := invalid a + invalid b |}.

(** The counts of an aggregation, without its sums. *)
Definition counts (a : aggregation)
  : Z * gmap string Z * gmap string Z * Z * Z :=
  (acc_count (overall a), acc_count <$> by_class a, acc_count <$> by_subject a,
   valid a, invalid a).

(** Adding the scores [l2] one by one to the sum of [l1] gives the float
    that adding the sum of [l2] to it gives. *)
Definition merges (l1 l2 : list float) : Prop :=
  fsum (fsum 0 l1) l2 = (fsum 0 l1 + fsum 0 l2)%float.

Definition sums_merge (df1 df2 : list row) : Prop :=
  merges (scores_where everyone df1) (scores_where everyone df2)
  /\ (forall k,
        scores_where (in_group student_class k) df1 <> [] ->
        scores_where (in_group student_class k) df2 <> [] ->
        merges (scores_where (in_group student_class k) df1)
               (scores_where (in_group student_class k) df2))
  /\ (forall k,
        scores_where (in_group subject k) df1 <> [] ->
        scores_where (in_group subject k) df2 <> [] ->
        merges (scores_where (in_group subject k) df1)
               (scores_where (in_group subject k) df2)).

(** The accumulator of a group, from its entries in the two dictionaries. *)
Definition group_accumulator (total : option float) (count : option Z)
  : option accumulator :=
  t ← total; c ← count; Some (Accumulator t c).

(** The exception that ends the imperative loop on the table [df], given
    whether [score] is bound when it starts; [None] when the loop completes. *)
Fixpoint loop_error (bound : bool) (df : list row) : option exn :=
  match df with
  | [] => None
  | r :: df' =>
      match py_float (score_str r) with
      | Ok _ => loop_error true df'
      | Raise ValueError => if bound then loop_error bound df' else Some NameError
      | Raise e => Some e
      end
  end.

(** The student records that the imperative loop builds from the rows [df]
    when [score] holds [prev] at the start: the Score of a record is the float
    of its row or, when the row has none, the float of the last row before it
    that had one; the Grade is the grade of the row's own conversion. *)
Fixpoint records_from (prev : option float) (df : list row) : list graded :=
  match df with
  | [] => []
  | r :: df' =>
      let cur := match converted r with Some v => Some v | None => prev end in
      Graded (name r) (student_class r) (subject r) cur (calculate_grade (converted r))
        :: records_from cur df'
  end.

(** The mean of the scores [l] as the imperative script computes it: their
    sum from the left, divided by their number; no mean of no score. *)
Definition mean_of (l : list float) : option float :=
  match l with
  | [] => None
  | _ => Some (fsum 0 l / PyFloat.of_Z (len l))%float
  end.

(** The rank of a grade label, "A" the highest and "Error" below "F". *)
Definition grade_rank (grade : string) : Z :=
  if String.eqb grade "A" then 4
  else if String.eqb grade "B" then 3
  else if String.eqb grade "C" then 2
  else if String.eqb grade "D" then 1
  else if String.eqb grade "F" then 0
  else -1.

(** The sum of the counts of a dictionary. *)
Definition sum_counts (counts : gmap string Z) : Z :=
  map_fold (fun _ c acc => c + acc) 0 counts.

(** ** Numeric text

    The grammar of the language reference for the argument of [float]:

      sign        ::= "+" | "-"
      digit       ::= "0" ... "9"
      digitpart   ::= digit (["_"] digit)*
      number      ::= [digitpart] "." digitpart | digitpart ["."]
      exponent    ::= ("e" | "E") [sign] digitpart
      floatnumber ::= number [exponent]
      floatvalue  ::= [sign] (floatnumber | "inf" | "infinity" | "nan")

    with the words read without regard to case, and whitespace allowed
    before and after the floatvalue.  Every relation below holds of a text
    and of what the text denotes. *)

Definition digit (c : ascii) : Prop :=
  In c ["0"; "1"; "2"; "3"; "4"; "5"; "6"; "7"; "8"; "9"]%char.

Definition digit_number (c : ascii) : Z :=
  match c with
  | "1" => 1 | "2" => 2 | "3" => 3 | "4" => 4 | "5" => 5
  | "6" => 6 | "7" => 7 | "8" => 8 | "9" => 9 | _ => 0
  end%char.

(** The value of the digits [ds] read after the value [acc]. *)
Definition decimal_from (acc : Z) (ds : list ascii) : Z :=
  fold_left (fun a c => 10 * a + digit_number c) ds acc.

Definition decimal (ds : list ascii) : Z := decimal_from 0 ds.

(** [(["_"] digit)*] and its digits. *)
Inductive digit_run : list ascii -> list ascii -> Prop :=
  | run_nil : digit_run [] []
  | run_digit c s ds :
      digit c -> digit_run s ds -> digit_run (c :: s) (c :: ds)
  | run_underscore c s ds :
      digit c -> digit_run s ds -> digit_run ("_"%char :: c :: s) (c :: ds).

Inductive digitpart_text : list ascii -> list ascii -> Prop :=
  | digitpart_intro c s ds :
      digit c -> digit_run s ds -> digitpart_text (c :: s) (c :: ds).

(** An optional sign, and whether it is a minus. *)
Inductive sign_text : list ascii -> bool -> Prop :=
  | sign_none : sign_text [] false
  | sign_plus : sign_text ["+"%char] false
  | sign_minus : sign_text ["-"%char] true.

(** An optional exponent and the power of ten it denotes. *)
Inductive exponent_text : list ascii -> Z -> Prop :=
  | exponent_none : exponent_text [] 0
  | exponent_some c sg neg d ds :
      c = "e"%char \/ c = "E"%char -> sign_text sg neg -> digitpart_text d ds ->
      exponent_text (c :: sg ++ d) (if neg then - decimal ds else decimal ds).

(** A floatnumber and the integer [m] and power of ten [e] it denotes: the
    number [m * 10 ^ e]. *)
Inductive floatnumber_text : list ascii -> Z -> Z -> Prop :=
  | number_integer i di ex x :
      digitpart_text i di -> exponent_text ex x ->
      floatnumber_text (i ++ ex) (decimal di) x
  | number_integer_point i di ex x :
      digitpart_text i di -> exponent_text ex x ->
      floatnumber_text (i ++ "."%char :: ex) (decimal di) x
  | number_fraction i di f df ex x :
      digitpart_text i di -> digitpart_text f df -> exponent_text ex x ->
      floatnumber_text (i ++ "."%char :: f ++ ex)
        (decimal (di ++ df)) (x - len df)
  | number_point_fraction f df ex x :
      digitpart_text f df -> exponent_text ex x ->
      floatnumber_text ("."%char :: f ++ ex) (decimal df) (x - len df).

(** [c] is the small letter [x] or its capital. *)
Definition same_letter (c x : ascii) : Prop :=
  c = x \/ (N_of_ascii c + 32)%N = N_of_ascii x.

(** [t] spells the word [w] of small letters, in any case. *)
Definition spells (t : list ascii) (w : string) : Prop :=
  Forall2 same_letter t (String.list_ascii_of_string w).

(** A floatvalue and the float it denotes. *)
Inductive floatvalue_text : list ascii -> float -> Prop :=
  | value_number sg neg body m e :
      sign_text sg neg -> floatnumber_text body m e ->
      floatvalue_text (sg ++ body) (SF2Prim (PyFloat.round_decimal neg m e))
  | value_infinity sg neg body :
      sign_text sg neg ->
      spells body "inf" \/ spells body "infinity" ->
      floatvalue_text (sg ++ body) (if neg then neg_infinity else infinity)
  | value_nan sg neg body :
      sign_text sg neg -> spells body "nan" ->
      floatvalue_text (sg ++ body) nan.

(** The whitespace that may stand before and after the number: tab, line
    feed, vertical tab, form feed, carriage return and space. *)
Definition space (c : ascii) : Prop :=
  In c ["009"; "010"; "011"; "012"; "013"; " "]%char.

Definition whitespace (t : list ascii) : Prop := Forall space t.

(** The characters of a text as [float] reads them. *)
Definition ascii_text (s : string) : list ascii :=
  PyFloat.transform_decimal_and_space_to_ascii
    (PyFloat.decode (String.list_ascii_of_string s)).

(** [s] is numeric text of value [v]: a floatvalue, with whitespace before
    and after it. *)
Definition numeric (s : string) (v : float) : Prop :=
  exists before t after,
    ascii_text s = before ++ t ++ after
    /\ whitespace before /\ whitespace after /\ floatvalue_text t v.

(** [s] is empty or whitespace only. *)
Definition blank (s : string) : Prop := whitespace (ascii_text s).

(** A text in lower case. *)
Definition lowercase (t : list ascii) : string :=
  String.string_of_list_ascii (List.map PyFloat.lower t).

(** A text that is not empty and holds no whitespace. *)
Definition solid (t : list ascii) : Prop :=
  t <> [] /\ Forall (fun c => PyFloat.is_space c = false) t.

(** A table whose second Score cell is blank: the reader of the table gives
    the floats 90.0 and NaN. *)
Definition missing_score : list row :=
  [Row "Alice" "A02" "Science" (Float 90);
   Row "Bob" "A01" "English" (Float nan)].

(** * Lemmas *)

(** ** Comparisons of floats

    The comparisons of primitive floats are specified by [ltb_spec] and
    [leb_spec] in terms of [SFcompare]. *)

Section FloatOrder.

Ltac cmp_cases :=
  repeat match goal with
  | |- context [Z.compare ?a ?b] => destruct (Z.compare_spec a b)
  | H : context [Z.compare ?a ?b] |- _ => destruct (Z.compare_spec a b)
  | |- context [Pos.compare_cont Eq ?a ?b] =>
      change (Pos.compare_cont Eq a b) with (Pos.compare a b);
      destruct (Pos.compare_spec a b)
  | H : context [Pos.compare_cont Eq ?a ?b] |- _ =>
      change (Pos.compare_cont Eq a b) with (Pos.compare a b) in H;
      destruct (Pos.compare_spec a b)
  end.

Lemma SF_lt_le_not_le (x y z : spec_float) :
  SFltb x y = true -> SFleb y z = true -> SFleb z x = false.
Proof.
  unfold SFltb, SFleb.
  destruct x as [sx|sx| |sx mx ex], y as [sy|sy| |sy my ey],
           z as [sz|sz| |sz mz ez];
    simpl; try discriminate; try reflexivity;
    repeat match goal with s : bool |- _ => destruct s end;
    simpl; try discriminate; try reflexivity;
    cmp_cases; simpl; try discriminate; try reflexivity; intros; try lia.
Qed.

Lemma SFeqb_irrefl_nan (x : spec_float) : SFeqb x x = false -> x = S754_nan.
Proof.
  unfold SFeqb.
  destruct x as [s|s| |s m e]; simpl; try discriminate; try reflexivity;
    destruct s; try discriminate;
    rewrite Z.compare_refl; change (Pos.compare_cont Eq m m) with (Pos.compare m m);
    rewrite Pos.compare_refl; discriminate.
Qed.

(** [x < y <= z] excludes [z <= x]. *)
Lemma ltb_leb_not_leb (x y z : float) :
  (x <? y)%float = true -> (y <=? z)%float = true -> (z <=? x)%float = false.
Proof. rewrite ltb_spec, !leb_spec. apply SF_lt_le_not_le. Qed.

(** NaN is not above any float. *)
Lemma leb_nan (c v : float) : is_nan v = true -> (c <=? v)%float = false.
Proof.
  unfold is_nan. intros H. apply negb_true_iff in H.
  rewrite FloatAxioms.eqb_spec in H. rewrite leb_spec, (SFeqb_irrefl_nan _ H).
  unfold SFleb. destruct (Prim2SF c); reflexivity.
Qed.

End FloatOrder.

(** ** The conversion of a score *)

Lemma int64_in_float_range (z : Z) :
  - 2 ^ 63 <= z < 2 ^ 64 -> in_float_range (Int z).
Proof.
  intros Hz. simpl.
  assert (2 ^ 64 < PyFloat.overflow_bound) by reflexivity. lia.
Qed.

Lemma py_float_in_range (x : cell) :
  in_float_range x -> py_float x <> Raise OverflowError.
Proof.
  destruct x as [s|f|z| ]; simpl; try discriminate.
  - destruct (PyFloat.of_string s); discriminate.
  - intros Hz. apply Z.ltb_lt in Hz. rewrite Hz. discriminate.
Qed.

Lemma py_float_cases (x : cell) :
  (exists v, py_float x = Ok v) \/ py_float x = Raise ValueError
  \/ py_float x = Raise TypeError \/ py_float x = Raise OverflowError.
Proof.
  destruct x as [s|f|z| ]; simpl; eauto.
  - destruct (PyFloat.of_string s); eauto.
  - destruct (Z.abs z <? PyFloat.overflow_bound); eauto 6.
Qed.

(** ** The variable [score] of the imperative loop *)

Lemma step_score (st st' : Imperative.state) (r : row) :
  Imperative.step st r = Ok st' ->
  Imperative.score st'
    = match py_float (score_str r) with
      | Ok v => Some v
      | Raise _ => Imperative.score st
      end.
Proof.
  unfold Imperative.step, Imperative.convert.
  destruct (py_float (score_str r)) as [v|[]]; simpl; try discriminate.
  - destruct (Imperative.update_group _ _ (Imperative.class_totals st) _)
      as [[ct cc]|]; simpl; [|discriminate].
    destruct (Imperative.update_group _ _ (Imperative.subject_totals st) _)
      as [[sjt sjc]|]; simpl; [|discriminate].
    intros [= <-]. reflexivity.
  - destruct (Imperative.score st) as [w|]; simpl; [|discriminate].
    intros [= <-]. reflexivity.
Qed.

Lemma loop_score (df : list row) (st st' : Imperative.state) :
  Imperative.loop st df = Ok st' ->
  Imperative.score st' = last_converted df (Imperative.score st).
Proof.
  revert st. induction df as [|r df IH]; intros st; simpl.
  - intros [= <-]. reflexivity.
  - destruct (Imperative.step st r) as [st1|] eqn:Hstep; simpl; [|discriminate].
    intros Hloop. rewrite (IH _ Hloop), (step_score _ _ _ Hstep). reflexivity.
Qed.

Lemma loop_app (df1 df2 : list row) (st : Imperative.state) :
  Imperative.loop st (df1 ++ df2)
    = (st' ← Imperative.loop st df1; Imperative.loop st' df2).
Proof.
  revert st. induction df1 as [|r df1 IH]; intros st; simpl; [reflexivity|].
  destruct (Imperative.step st r) as [st1|]; simpl; [apply IH | reflexivity].
Qed.

(** ** The statistics of the imperative loop *)

Lemma consistent_init : consistent init.
Proof.
  repeat split; try done; intros k; simpl; by rewrite !lookup_empty.
Qed.

Lemma scores_where_app (sel : row -> bool) (df1 df2 : list row) :
  scores_where sel (df1 ++ df2) = scores_where sel df1 ++ scores_where sel df2.
Proof.
  induction df1 as [|r df1 IH]; simpl; [done|].
  destruct (converted r); [destruct (sel r)|]; simpl; by rewrite IH.
Qed.

Lemma fsum_app (start : float) (l1 l2 : list float) :
  fsum start (l1 ++ l2) = fsum (fsum start l1) l2.
Proof. apply fold_left_app. Qed.

Lemma len_app {A : Type} (l1 l2 : list A) : len (l1 ++ l2) = len l1 + len l2.
Proof. unfold len. rewrite length_app. lia. Qed.

Lemma group_total_app (old : option float) (l1 l2 : list float) :
  group_total (group_total old l1) l2 = group_total old (l1 ++ l2).
Proof.
  destruct l1 as [|x l1]; [done|]. destruct l2 as [|y l2].
  - by rewrite app_nil_r.
  - unfold group_total at 1 3. simpl app. cbv beta iota.
    change (default 0%float (group_total old (x :: l1)))
      with (fsum (default 0%float old) (x :: l1)).
    by rewrite <- fsum_app.
Qed.

Lemma group_count_app (old : option Z) (l1 l2 : list float) :
  group_count (group_count old l1) l2 = group_count old (l1 ++ l2).
Proof.
  destruct l1 as [|x l1]; [done|]. destruct l2 as [|y l2].
  - by rewrite app_nil_r.
  - unfold group_count at 1 3. simpl app. cbv beta iota.
    change (default 0 (group_count old (x :: l1)))
      with (default 0 old + len (x :: l1)).
    f_equal. change (x :: l1 ++ y :: l2) with ((x :: l1) ++ y :: l2).
    rewrite len_app. lia.
Qed.

(** One group's total and count after [update_group]. *)
Lemma update_group_spec (key : string) (v : float)
    (totals : gmap string float) (counts : gmap string Z) :
  paired totals counts ->
  exists totals' counts',
    update_group key v totals counts = Ok (totals', counts')
    /\ paired totals' counts'
    /\ (forall k, totals' !! k
          = group_total (totals !! k) (if bool_decide (key = k) then [v] else []))
    /\ (forall k, counts' !! k
          = group_count (counts !! k) (if bool_decide (key = k) then [v] else [])).
Proof.
  intros Hp. unfold update_group, getitem.
  pose proof (Hp key) as Hkey.
  destruct (totals !! key) as [t|] eqn:Ht, (counts !! key) as [c|] eqn:Hc;
    try done; simpl; rewrite ?Ht, ?lookup_insert_eq; simpl;
    eexists _, _; (split; [done|]); (split; [|split]); intros k.
  all: try (pose proof (Hp k) as Hk; unfold paired in Hk |- *).
  all: destruct (decide (key = k)) as [->|Hne];
    rewrite ?bool_decide_eq_true_2, ?bool_decide_eq_false_2 by done;
    rewrite ?insert_insert_eq;
    rewrite ?lookup_insert_eq, ?lookup_insert_ne by done;
    rewrite ?Ht, ?Hc; try done.
  lia.
Qed.

Lemma accumulated_nil (st : state) : accumulated st st [].
Proof. unfold accumulated, len; simpl. repeat split; try done. lia. Qed.

Lemma accumulated_app (st0 st1 st2 : state) (df1 df2 : list row) :
  accumulated st0 st1 df1 -> accumulated st1 st2 df2 ->
  accumulated st0 st2 (df1 ++ df2).
Proof.
  intros (Ht1 & Hc1 & Hct1 & Hcc1 & Hst1 & Hsc1)
         (Ht2 & Hc2 & Hct2 & Hcc2 & Hst2 & Hsc2).
  unfold accumulated. rewrite !scores_where_app, fsum_app, len_app.
  repeat split; try intros k; rewrite ?scores_where_app.
  - by rewrite Ht2, Ht1.
  - lia.
  - by rewrite Hct2, Hct1, group_total_app.
  - by rewrite Hcc2, Hcc1, group_count_app.
  - by rewrite Hst2, Hst1, group_total_app.
  - by rewrite Hsc2, Hsc1, group_count_app.
Qed.

Lemma step_succeeds (st : state) (r : row) :
  consistent st -> step_defined st r ->
  exists st', step st r = Ok st' /\ consistent st' /\ accumulated st st' [r].
Proof.
  intros (Hcl & Hsj & Hn) Hdef. unfold step, convert.
  assert (Hconv : converted r
            = match py_float (score_str r) with Ok v => Some v | Raise _ => None end)
    by done.
  unfold step_defined in Hdef. rewrite Hconv in Hdef.
  destruct (py_float (score_str r)) as [v|e] eqn:Hv; simpl.
  - destruct (update_group_spec (student_class r) v _ _ Hcl)
      as (ct & cc & Hc & Hpc & Hct & Hcc).
    destruct (update_group_spec (subject r) v _ _ Hsj)
      as (sjt & sjc & Hs & Hps & Hst & Hsc).
    rewrite Hc. simpl. rewrite Hs. simpl. eexists. split; [done|].
    split; [repeat split; simpl; try done; lia|].
    unfold accumulated, in_group, everyone, len; simpl.
    rewrite Hconv. simpl. repeat split; try done; lia.
  - destruct Hdef as [[? [=]]|[[= ->] [w Hw]]]. rewrite Hw. simpl.
    eexists. split; [done|]. split; [done|].
    unfold accumulated, len; simpl. rewrite Hconv. simpl.
    repeat split; try done. lia.
Qed.

Lemma step_Ok_defined (st st' : state) (r : row) :
  step st r = Ok st' -> step_defined st r.
Proof.
  unfold step, convert, step_defined, converted.
  destruct (py_float (score_str r)) as [v|[]]; simpl; try done; eauto.
  destruct (score st); simpl; [eauto | done].
Qed.

(** What the loop leaves in the state. *)
Lemma loop_accumulated (df : list row) (st st' : state) :
  consistent st -> loop st df = Ok st' ->
  consistent st' /\ accumulated st st' df.
Proof.
  revert st. induction df as [|r df IH]; intros st Hc; simpl.
  - intros [= <-]. split; [done | apply accumulated_nil].
  - destruct (step st r) as [st1|] eqn:Hstep; simpl; [|done].
    intros Hloop.
    destruct (step_succeeds st r Hc (step_Ok_defined _ _ _ Hstep))
      as (st1' & Hstep' & Hc1 & Hacc1).
    rewrite Hstep in Hstep'. injection Hstep' as <-.
    destruct (IH _ Hc1 Hloop) as [Hc' Hacc].
    split; [done|]. by apply (accumulated_app st st1 st' [r] df).
Qed.

(** The averages are defined for dictionaries that hold the same keys and
    no count of zero: no KeyError and no ZeroDivisionError. *)
Lemma averages_spec (totals : gmap string float) (counts : gmap string Z) :
  paired totals counts ->
  exists avgs,
    averages totals counts = Ok avgs
    /\ forall k, avgs !! k = group_mean (totals !! k) (counts !! k).
Proof.
  intros Hp.
  assert (Hin : forall k, is_Some (totals !! k) ->
            exists c, counts !! k = Some c /\ c <> 0).
  { intros k [t Ht]. specialize (Hp k). rewrite Ht in Hp.
    destruct (counts !! k) as [c|]; [|done]. exists c. split; [done | lia]. }
  clear Hp. revert Hin. unfold averages.
  apply (map_fold_weak_ind (fun r (m : gmap string float) =>
    (forall k, is_Some (m !! k) -> exists c, counts !! k = Some c /\ c <> 0) ->
    exists avgs, r = Ok avgs
      /\ forall k, avgs !! k = group_mean (m !! k) (counts !! k))).
  - intros _. exists ∅. split; [done|]. intros k. by rewrite !lookup_empty.
  - intros i t m r Hi IH Hin.
    destruct IH as (avgs & -> & Havgs).
    { intros k Hk. apply Hin. destruct (decide (i = k)) as [->|Hne].
      - rewrite Hi in Hk. by destruct Hk.
      - by rewrite lookup_insert_ne. }
    destruct (Hin i) as (c & Hc & Hc0); [by rewrite lookup_insert_eq|].
    simpl. unfold getitem, truediv. rewrite Hc. simpl.
    apply Z.eqb_neq in Hc0. rewrite Hc0. simpl.
    eexists. split; [done|]. intros k.
    destruct (decide (i = k)) as [<-|Hne].
    + by rewrite !lookup_insert_eq, Hc.
    + by rewrite !lookup_insert_ne.
Qed.

(** The summary of a consistent state: nothing is raised. *)
Lemma summarize_spec (df : list row) (st : state) :
  consistent st ->
  exists s,
    summarize df st = Ok s
    /\ overall_average s
        = (if overall_count st >? 0
           then (overall_total st / PyFloat.of_Z (overall_count st))%float
           else 0%float)
    /\ (forall k, class_averages s !! k
          = group_mean (class_totals st !! k) (class_counts st !! k))
    /\ (forall k, subject_averages s !! k
          = group_mean (subject_totals st !! k) (subject_counts st !! k))
    /\ valid_count s = overall_count st
    /\ total_count s = len df.
Proof.
  intros (Hcl & Hsj & Hn). unfold summarize.
  destruct (averages_spec _ _ Hcl) as (ca & -> & Hca).
  destruct (averages_spec _ _ Hsj) as (sa & -> & Hsa).
  unfold truediv.
  destruct (overall_count st >? 0) eqn:Hpos; simpl.
  - assert (Hz : (overall_count st =? 0) = false) by lia. rewrite Hz. simpl.
    eexists. repeat split; simpl; done.
  - eexists. repeat split; simpl; done.
Qed.

(** ** The tables of the functional script *)

Lemma groupby_fold (column : graded -> string) (df : list graded)
    (groups : gmap string (list (option float))) (k : string) :
  fold_left
    (fun groups r =>
       <[column r := default [] (groups !! column r) ++ [Score r]]> groups)
    df groups !! k
  = group_values (groups !! k) (Score <$> List.filter (in_column column k) df).
Proof.
  revert groups. induction df as [|g df IH]; intros groups; [done|].
  simpl fold_left. rewrite IH. simpl List.filter. unfold in_column at 2.
  destruct (decide (column g = k)) as [Hk|Hk].
  - rewrite bool_decide_eq_true_2 by done. rewrite Hk, lookup_insert_eq.
    rewrite fmap_cons.
    destruct (Score <$> List.filter (in_column column k) df) as [|x l]; simpl.
    + done.
    + by rewrite <- app_assoc.
  - rewrite bool_decide_eq_false_2 by done. by rewrite lookup_insert_ne.
Qed.

(** A group of [groupby] holds the Score values of the rows of its key, and
    there is a group for the keys of the table only. *)
Lemma groupby_lookup (column : graded -> string) (df : list graded) (k : string) :
  Pandas.groupby column df !! k
  = group_values None (Score <$> List.filter (in_column column k) df).
Proof. unfold Pandas.groupby. by rewrite groupby_fold, lookup_empty. Qed.

Lemma groupby_dom (column : graded -> string) (df : list graded) (k : string) :
  k ∈ dom (Pandas.groupby column df) <-> exists g, g ∈ df /\ column g = k.
Proof.
  rewrite elem_of_dom, groupby_lookup. split.
  - destruct (List.filter (in_column column k) df) as [|g l] eqn:Hf.
    + simpl. by intros [? [=]].
    + intros _. exists g.
      assert (Hin : In g (List.filter (in_column column k) df))
        by (rewrite Hf; by left).
      apply filter_In in Hin as [Hin Hk]. apply list_elem_of_In in Hin.
      unfold in_column in Hk. by apply bool_decide_eq_true_1 in Hk.
  - intros (g & Hin & Hk).
    assert (Hf : In g (List.filter (in_column column k) df)).
    { apply filter_In. split; [by apply list_elem_of_In|].
      unfold in_column. by apply bool_decide_eq_true_2. }
    destruct (List.filter (in_column column k) df) as [|g' l]; [done|].
    simpl. eauto.
Qed.

(** The conversions of a column. *)
Lemma clean_score_Ok (r : row) (y : option float) :
  clean_score (score_str r) = Ok y -> y = converted r.
Proof.
  unfold clean_score, converted.
  destruct (py_float (score_str r)) as [v|[]]; simpl; congruence.
Qed.

Lemma clean_score_defined (r : row) :
  py_float (score_str r) <> Raise OverflowError ->
  clean_score (score_str r) = Ok (converted r).
Proof.
  unfold clean_score, converted. pose proof (py_float_cases (score_str r)) as Hc.
  destruct (py_float (score_str r)) as [v|[]]; simpl; try done;
    destruct Hc as [[? [=]]|[[=]|[[=]|[=]]]].
Qed.

Lemma apply_cons {A B : Type} (f : A -> result B) (x : A) (xs : list A) :
  Pandas.apply f (x :: xs) = (y ← f x; ys ← Pandas.apply f xs; Ok (y :: ys)).
Proof. done. Qed.

Lemma apply_clean_score (df : list row) (ys : list (option float)) :
  Pandas.apply clean_score (score_str <$> df) = Ok ys -> ys = converted <$> df.
Proof.
  revert ys. induction df as [|r df IH]; intros ys.
  - by intros [= <-].
  - rewrite !fmap_cons, apply_cons.
    destruct (clean_score (score_str r)) as [y|] eqn:Hy; [|done].
    destruct (Pandas.apply clean_score (score_str <$> df)) as [ys'|]; [|done].
    simpl. intros [= <-].
    by rewrite (clean_score_Ok _ _ Hy), (IH ys' eq_refl).
Qed.

Lemma apply_clean_score_defined (df : list row) :
  (forall r, r ∈ df -> py_float (score_str r) <> Raise OverflowError) ->
  Pandas.apply clean_score (score_str <$> df) = Ok (converted <$> df).
Proof.
  induction df as [|r df IH]; intros Hdf; [done|].
  rewrite !fmap_cons, apply_cons.
  rewrite IH by (intros r' Hr'; apply Hdf; by right).
  by rewrite clean_score_defined by (apply Hdf; by left).
Qed.

Lemma apply_clean_score_Ok (df : list row) (ys : list (option float)) (r : row) :
  Pandas.apply clean_score (score_str <$> df) = Ok ys -> r ∈ df ->
  py_float (score_str r) <> Raise OverflowError.
Proof.
  revert ys. induction df as [|r' df IH]; intros ys; [by inversion 2|].
  rewrite !fmap_cons, apply_cons.
  destruct (clean_score (score_str r')) as [y|] eqn:Hy; [|done].
  destruct (Pandas.apply clean_score (score_str <$> df)) as [ys'|]; [|done].
  intros _ [->|Hin]%elem_of_cons.
  - unfold clean_score in Hy. intros Hr. by rewrite Hr in Hy.
  - by apply (IH ys').
Qed.

Lemma apply_pure {A B : Type} (f : A -> B) (xs : list A) :
  Pandas.apply (fun x => Ok (f x)) xs = Ok (f <$> xs).
Proof.
  induction xs as [|x xs IH]; [done|].
  rewrite apply_cons, IH. by rewrite fmap_cons.
Qed.

Lemma assign_fmap (df : list row) (sc : row -> option float) (gr : row -> string) :
  Pandas.assign df (sc <$> df) (gr <$> df)
  = (fun r => Graded (name r) (student_class r) (subject r) (sc r) (gr r)) <$> df.
Proof.
  induction df as [|r df IH]; [done|].
  rewrite !fmap_cons. cbn [Pandas.assign]. by rewrite IH.
Qed.

Lemma infer_objects_fmap (column : list (option float)) :
  Pandas.infer_objects column = inferred column <$> column.
Proof.
  unfold Pandas.infer_objects, inferred.
  destruct (existsb _ column); [done|]. by rewrite list_fmap_id.
Qed.

Lemma inferred_notna (column : list (option float)) (x : option float) :
  Pandas.notna x = true -> inferred column x = x.
Proof.
  unfold inferred. destruct (existsb _ column), x; done.
Qed.

Lemma notna_inferred (column : list (option float)) (x : option float) :
  Pandas.notna (inferred column x) = Pandas.notna x.
Proof.
  unfold inferred. destruct (existsb _ column), x; done.
Qed.

Lemma add_grade_column_spec (df : list row) (p : list graded) :
  Functional.add_grade_column df = Ok p -> p = processed df <$> df.
Proof.
  unfold Functional.add_grade_column.
  destruct (Pandas.apply clean_score (score_str <$> df)) as [ys|] eqn:Hys;
    simpl; [|done].
  apply apply_clean_score in Hys as ->.
  rewrite apply_pure. simpl. intros [= <-].
  rewrite infer_objects_fmap, <- !list_fmap_compose.
  by rewrite assign_fmap.
Qed.

Lemma add_grade_column_defined (df : list row) :
  (forall r, r ∈ df -> py_float (score_str r) <> Raise OverflowError) ->
  Functional.add_grade_column df = Ok (processed df <$> df).
Proof.
  intros Hdf. unfold Functional.add_grade_column.
  rewrite apply_clean_score_defined by done. simpl.
  rewrite apply_pure. simpl.
  rewrite infer_objects_fmap, <- !list_fmap_compose.
  by rewrite assign_fmap.
Qed.

Lemma filter_valid_processed (column : list (option float)) (l : list row) :
  Functional.filter_valid_scores
    ((fun r =>
        Graded (name r) (student_class r) (subject r)
          (inferred column (converted r))
          (calculate_grade (inferred column (converted r)))) <$> l)
  = omap valid_record l.
Proof.
  unfold Functional.filter_valid_scores.
  induction l as [|r l IH]; [done|].
  rewrite fmap_cons. cbn [List.filter omap list_omap Score]. rewrite <- IH.
  rewrite notna_inferred. unfold valid_record.
  destruct (converted r) as [v|] eqn:Hv; simpl; [|done].
  destruct (is_nan v) eqn:Hnan; simpl; [done|].
  rewrite inferred_notna by (simpl; by rewrite Hnan). done.
Qed.

Lemma valid_scores_cons (sel : row -> bool) (r : row) (df : list row) :
  valid_scores sel (r :: df)
  = match converted r with
    | Some v =>
        if (sel r && negb (is_nan v))%bool then v :: valid_scores sel df
        else valid_scores sel df
    | None => valid_scores sel df
    end.
Proof.
  unfold valid_scores. cbn [scores_where].
  destruct (converted r) as [v|]; [|done].
  destruct (sel r); [|done]. cbn [List.filter andb].
  by destruct (negb (is_nan v)).
Qed.

Lemma valid_record_scores (column : graded -> string) (col : row -> string)
    (k : string) (df : list row) :
  (forall r g, valid_record r = Some g -> column g = col r) ->
  Score <$> List.filter (in_column column k) (omap valid_record df)
  = Some <$> valid_scores (in_group col k) df.
Proof.
  intros Hcol. induction df as [|r df IH]; [done|].
  rewrite valid_scores_cons. cbn [omap list_omap].
  destruct (valid_record r) as [g|] eqn:Hg.
  - pose proof (Hcol _ _ Hg) as Hk. unfold valid_record in Hg.
    destruct (converted r) as [v|]; [|done].
    destruct (is_nan v) eqn:Hnan; [done|]. injection Hg as <-.
    cbn [List.filter]. unfold in_column at 1, in_group at 1. rewrite Hk.
    destruct (bool_decide (col r = k)); cbn [andb negb]; [|done].
    by rewrite !fmap_cons, IH.
  - unfold valid_record in Hg. destruct (converted r) as [v|]; [|done].
    destruct (is_nan v) eqn:Hnan; [|done].
    by rewrite andb_false_r.
Qed.

Lemma valid_record_all_scores (df : list row) :
  Score <$> omap valid_record df = Some <$> valid_scores everyone df.
Proof.
  induction df as [|r df IH]; [done|].
  rewrite valid_scores_cons. cbn [omap list_omap everyone andb].
  unfold valid_record at 1.
  destruct (converted r) as [v|]; [|done].
  destruct (is_nan v); cbn [negb]; [done|]. by rewrite !fmap_cons, IH.
Qed.

Lemma len_fmap {A B : Type} (f : A -> B) (l : list A) : len (f <$> l) = len l.
Proof. unfold len. by rewrite length_fmap. Qed.

(** What the functional script returns. *)
Lemma pipeline_processing_spec (series_mean : list (option float) -> float)
    (df : list row) (res : Functional.results) :
  Functional.pipeline_processing series_mean df = Ok res ->
  Functional.processed_data res = processed df <$> df
  /\ overall_average (Functional.stats res)
     = series_mean (Some <$> valid_scores everyone df)
  /\ (forall k, class_averages (Functional.stats res) !! k
        = series_mean <$>
            group_values None (Some <$> valid_scores (in_group student_class k) df))
  /\ (forall k, subject_averages (Functional.stats res) !! k
        = series_mean <$>
            group_values None (Some <$> valid_scores (in_group subject k) df))
  /\ valid_count (Functional.stats res) = len (valid_scores everyone df)
  /\ total_count (Functional.stats res) = len df.
Proof.
  unfold Functional.pipeline_processing.
  destruct (Functional.add_grade_column df) as [p|] eqn:Hp; [|done].
  apply add_grade_column_spec in Hp as ->. simpl. intros [= <-]. simpl.
  unfold processed. rewrite filter_valid_processed.
  unfold Functional.calculate_group_average.
  repeat split.
  - by rewrite valid_record_all_scores.
  - intros k. rewrite lookup_fmap, groupby_lookup.
    rewrite (valid_record_scores Class_ student_class); [done|].
    intros r g. unfold valid_record.
    destruct (converted r) as [v|]; [|done].
    destruct (is_nan v); [done|]. by intros [= <-].
  - intros k. rewrite lookup_fmap, groupby_lookup.
    rewrite (valid_record_scores Subject subject); [done|].
    intros r g. unfold valid_record.
    destruct (converted r) as [v|]; [|done].
    destruct (is_nan v); [done|]. by intros [= <-].
  - rewrite <- (len_fmap Score), valid_record_all_scores. apply len_fmap.
  - apply len_fmap.
Qed.

Lemma pipeline_processing_defined (series_mean : list (option float) -> float)
    (df : list row) :
  (forall r, r ∈ df -> py_float (score_str r) <> Raise OverflowError) ->
  succeeds (Functional.pipeline_processing series_mean df).
Proof.
  intros Hdf. unfold Functional.pipeline_processing.
  rewrite add_grade_column_defined by done. simpl. by eexists.
Qed.

(** ** Groups that have a mean *)

Lemma scores_where_nonempty (sel : row -> bool) (df : list row) :
  scores_where sel df <> []
  <-> exists r, r ∈ df /\ sel r = true /\ is_Some (converted r).
Proof.
  induction df as [|r df IH]; simpl.
  - split; [done|]. intros (r & Hr & _). by inversion Hr.
  - destruct (converted r) as [v|] eqn:Hv; [destruct (sel r) eqn:Hs|].
    + split; [|done]. intros _. exists r. rewrite Hv. split; [by left|eauto].
    + rewrite IH. split.
      * intros (r' & Hin & Hr'). exists r'. split; [by right | done].
      * intros (r' & [->|Hin]%elem_of_cons & Hs' & Hc); [congruence | eauto].
    + rewrite IH. split.
      * intros (r' & Hin & Hr'). exists r'. split; [by right | done].
      * intros (r' & [->|Hin]%elem_of_cons & Hs' & Hc); [|eauto].
        rewrite Hv in Hc. by destruct Hc.
Qed.

Lemma group_mean_is_Some (l : list float) :
  is_Some (group_mean (group_total None l) (group_count None l)) <-> l <> [].
Proof.
  destruct l as [|x l]; simpl.
  - split; [by intros [? [=]] | done].
  - split; [done | by eauto].
Qed.

(** ** Scores that parse to NaN *)

Lemma calculate_grade_nan (v : float) :
  is_nan v = true -> calculate_grade (Some v) = "F".
Proof.
  intros Hnan. unfold calculate_grade. by rewrite !(leb_nan _ _ Hnan).
Qed.

Lemma valid_scores_drop (sel : row -> bool) (pre post : list row) (r : row) :
  (forall v, converted r = Some v -> is_nan v = true) ->
  valid_scores sel (pre ++ r :: post) = valid_scores sel (pre ++ post).
Proof.
  intros Hr. induction pre as [|r' pre IH].
  - simpl app. rewrite valid_scores_cons.
    destruct (converted r) as [v|]; [|done].
    by rewrite (Hr v eq_refl), andb_false_r.
  - simpl app. by rewrite !valid_scores_cons, IH.
Qed.

Lemma processed_Some (df : list row) (r : row) (v : float) :
  converted r = Some v ->
  processed df r
  = Graded (name r) (student_class r) (subject r) (Some v) (calculate_grade (Some v)).
Proof.
  intros Hv. unfold processed, inferred. rewrite Hv.
  by destruct (existsb _ (converted <$> df)).
Qed.

(** ** The runs of the imperative loop that complete *)

Lemma loop_Ok_defined (df : list row) (st st' : state) :
  loop st df = Ok st' -> loop_defined (is_bound st) df.
Proof.
  revert st. induction df as [|r df IH]; intros st; simpl; [done|].
  destruct (step st r) as [st1|] eqn:Hstep; simpl; [|done].
  intros Hloop. apply IH in Hloop.
  pose proof (step_score _ _ _ Hstep) as Hscore.
  unfold is_bound in *. rewrite Hscore in Hloop.
  apply step_Ok_defined in Hstep as [[v Hv]|[Hv Hb]]; unfold converted in *.
  - by destruct (py_float (score_str r)) as [w|].
  - rewrite Hv in *. split; [by apply bool_decide_eq_true_2 | done].
Qed.

Lemma loop_defined_Ok (df : list row) (st : state) :
  consistent st -> loop_defined (is_bound st) df -> succeeds (loop st df).
Proof.
  revert st. induction df as [|r df IH]; intros st Hc; simpl; [by eexists|].
  intros Hdef.
  assert (Hstep : step_defined st r).
  { unfold step_defined, converted.
    destruct (py_float (score_str r)) as [v|[]]; try done; [by left; eexists|].
    right. split; [done|]. destruct Hdef as [Hb _].
    by apply bool_decide_eq_true_1 in Hb. }
  destruct (step_succeeds st r Hc Hstep) as (st1 & Hst1 & Hc1 & _).
  rewrite Hst1. simpl. apply IH; [done|].
  unfold is_bound. rewrite (step_score _ _ _ Hst1).
  destruct (py_float (score_str r)) as [v|[]]; try done.
  by destruct Hdef.
Qed.

Lemma loop_defined_mono (df : list row) (b : bool) :
  loop_defined b df -> loop_defined true df.
Proof.
  revert b. induction df as [|r df IH]; intros b; simpl; [done|].
  destruct (py_float (score_str r)) as [v|[]]; try done.
  intros [_ Hdf]. split; [done | by apply (IH b)].
Qed.


Lemma loop_defined_first (df : list row) (r : row) :
  loop_defined false (r :: df) -> is_Some (converted r).
Proof.
  simpl. unfold converted.
  destruct (py_float (score_str r)) as [v|[]]; try done. by intros [[=] _].
Qed.

(** A run that has completed can be carried on over every table that the
    loop completes on from the start. *)
Lemma loop_continue (df1 df2 : list row) (st1 st2 : state) :
  loop init df1 = Ok st1 -> loop init df2 = Ok st2 ->
  exists st,
    loop init (df1 ++ df2) = Ok st /\ loop st1 df2 = Ok st
    /\ consistent st1 /\ consistent st /\ accumulated st1 st df2.
Proof.
  intros H1 H2.
  destruct (loop_accumulated _ _ _ consistent_init H1) as [Hc1 _].
  apply loop_Ok_defined in H2.
  assert (Hdef : loop_defined (is_bound st1) df2).
  { destruct (is_bound st1); [by apply (loop_defined_mono _ (is_bound init)) | done]. }
  destruct (loop_defined_Ok _ _ Hc1 Hdef) as [st Hst].
  destruct (loop_accumulated _ _ _ Hc1 Hst) as [Hc Hacc].
  exists st. rewrite loop_app, H1. simpl. done.
Qed.

(** ** The two scripts side by side *)

Lemma valid_scores_no_nan (sel : row -> bool) (df : list row) :
  (forall r v, r ∈ df -> converted r = Some v -> is_nan v = false) ->
  valid_scores sel df = scores_where sel df.
Proof.
  induction df as [|r df IH]; intros Hdf; [done|].
  rewrite valid_scores_cons, IH by (intros r' v' Hin; apply Hdf; by right).
  cbn [scores_where]. destruct (converted r) as [v|] eqn:Hv; [|done].
  rewrite (Hdf r v) by (done || by left). by rewrite andb_true_r.
Qed.

Lemma main_Ok (df : list row) (recs : list graded) (s : summary) :
  main df = Ok (recs, s) ->
  exists st, loop init df = Ok st /\ summarize df st = Ok s
             /\ recs = students_data st.
Proof.
  unfold main. destruct (loop init df) as [st|] eqn:Hloop; [|done]. simpl.
  destruct (summarize df st) as [s'|] eqn:Hsum; [|done]. simpl.
  intros [= <- <-]. by exists st.
Qed.



(** ** The order of the rows *)

Lemma scores_where_Permutation (sel : row -> bool) (df df' : list row) :
  Permutation df df' -> Permutation (scores_where sel df) (scores_where sel df').
Proof.
  induction 1 as [|r df df' _ IH|r1 r2 df|df1 df2 df3 _ IH1 _ IH2]; simpl.
  - done.
  - destruct (converted r); [destruct (sel r)|]; by try constructor.
  - destruct (converted r1), (converted r2); try done;
      destruct (sel r1), (sel r2); try done. apply perm_swap.
  - by etrans.
Qed.

Lemma valid_scores_Permutation (sel : row -> bool) (df df' : list row) :
  Permutation df df' -> Permutation (valid_scores sel df) (valid_scores sel df').
Proof.
  intros Hp. unfold valid_scores.
  induction (scores_where_Permutation sel _ _ Hp)
    as [|v l l' _ IH|v1 v2 l|l1 l2 l3 _ IH1 _ IH2]; simpl.
  - done.
  - destruct (negb (is_nan v)); by try constructor.
  - destruct (negb (is_nan v1)), (negb (is_nan v2)); try done. apply perm_swap.
  - by etrans.
Qed.

Lemma len_Permutation {A : Type} (l l' : list A) : Permutation l l' -> len l = len l'.
Proof. intros Hp. unfold len. by rewrite (Permutation_length Hp). Qed.

Lemma Permutation_nonempty {A : Type} (l l' : list A) :
  Permutation l l' -> l <> [] <-> l' <> [].
Proof.
  intros Hp. split; intros Hne ->.
  - by apply Permutation_nil_r in Hp.
  - by apply Permutation_nil in Hp.
Qed.

Lemma group_mean_Permutation (l l' : list float) :
  Permutation l l' -> fsum 0 l = fsum 0 l' ->
  group_mean (group_total None l) (group_count None l)
  = group_mean (group_total None l') (group_count None l').
Proof.
  intros Hp Hsum. pose proof (len_Permutation _ _ Hp) as Hlen.
  destruct l as [|x l], l' as [|x' l']; try done.
  unfold group_total, group_count, group_mean. cbn [default].
  by rewrite Hsum, Hlen.
Qed.

(** ** Aggregations and their merge *)

Lemma group_accumulator_counts (l1 l2 : list float) :
  acc_count <$>
    group_accumulator (group_total (group_total None l1) l2)
                      (group_count (group_count None l1) l2)
  = acc_count <$>
      union_with (fun x y => Some (merge_accumulators x y))
        (group_accumulator (group_total None l1) (group_count None l1))
        (group_accumulator (group_total None l2) (group_count None l2)).
Proof.
  by destruct l1 as [|x1 l1], l2 as [|x2 l2].
Qed.

Lemma group_accumulator_merge (l1 l2 : list float) :
  (l1 <> [] -> l2 <> [] -> merges l1 l2) ->
  group_accumulator (group_total (group_total None l1) l2)
                    (group_count (group_count None l1) l2)
  = union_with (fun x y => Some (merge_accumulators x y))
      (group_accumulator (group_total None l1) (group_count None l1))
      (group_accumulator (group_total None l2) (group_count None l2)).
Proof.
  intros Hm. destruct l1 as [|x1 l1], l2 as [|x2 l2]; try done.
  specialize (Hm ltac:(done) ltac:(done)). unfold merges in Hm.
  unfold group_total, group_count, group_accumulator, merge_accumulators.
  cbn [default mbind option_bind union_with option_union_with acc_sum acc_count].
  unfold id. rewrite Hm. by do 2 f_equal.
Qed.

(** ** The parser of [float] and the grammar

    The parser accepts the texts of the grammar and no other, each with the
    value the grammar gives it. *)

Section Parser.

Import PyFloat.

Ltac each_ascii c :=
  destruct c as [[] [] [] [] [] [] [] []]; try discriminate; try reflexivity.

Lemma is_digit_plain (c : ascii) :
  is_digit c = true ->
  is_space c = false /\ lower c = c /\ Ascii.eqb c "_" = false
  /\ Ascii.eqb c "." = false /\ Ascii.eqb c "-" = false
  /\ Ascii.eqb c "+" = false.
Proof. each_ascii c; intros _; repeat split. Qed.

Lemma lower_e_plain (c : ascii) :
  lower c = "e"%char ->
  is_space c = false /\ is_digit c = false /\ Ascii.eqb c "_" = false
  /\ Ascii.eqb c "." = false.
Proof. each_ascii c; intros _; repeat split. Qed.

Lemma is_space_lower (c : ascii) :
  is_space (lower c) = false -> is_space c = false.
Proof. each_ascii c. Qed.

Lemma digit_spec (c : ascii) : digit c <-> is_digit c = true.
Proof.
  split.
  - intros Hc. repeat (destruct Hc as [<-|Hc]; [reflexivity|]). destruct Hc.
  - each_ascii c; intros _; unfold digit; simpl; tauto.
Qed.

Lemma digit_value_spec (c : ascii) : digit c -> digit_value c = digit_number c.
Proof.
  intros Hc. repeat (destruct Hc as [<-|Hc]; [reflexivity|]). destruct Hc.
Qed.

Lemma space_spec (c : ascii) : space c <-> is_space c = true.
Proof.
  split.
  - intros Hc. repeat (destruct Hc as [<-|Hc]; [reflexivity|]). destruct Hc.
  - each_ascii c; intros _; unfold space; simpl; tauto.
Qed.

Lemma exponent_mark_spec (c : ascii) :
  c = "e"%char \/ c = "E"%char <-> lower c = "e"%char.
Proof.
  split.
  - by intros [-> | ->].
  - each_ascii c; intros _; tauto.
Qed.

Lemma same_letter_spec (c x : ascii) :
  In x ["i"; "n"; "f"; "t"; "y"; "a"]%char ->
  same_letter c x <-> lower c = x.
Proof.
  intros Hx. unfold same_letter.
  repeat (destruct Hx as [<-|Hx];
    [destruct c as [[] [] [] [] [] [] [] []]; vm_compute;
     (split; [intros [H|H]; first [discriminate H | reflexivity]
             |intros H; first [discriminate H | by left | by right]])|]).
  destruct Hx.
Qed.

Lemma lower_not_sign (c : ascii) :
  lower c = "i"%char \/ lower c = "n"%char ->
  Ascii.eqb c "-" = false /\ Ascii.eqb c "+" = false.
Proof. each_ascii c; intros [H|H]; try discriminate H; split; reflexivity. Qed.

(** *** Whitespace around the number *)

Lemma lstrip_whitespace (ws t : list ascii) :
  whitespace ws -> lstrip (ws ++ t) = lstrip t.
Proof.
  induction 1 as [|c ws Hc%space_spec _ IH]; [reflexivity|].
  simpl. now rewrite Hc.
Qed.

Lemma lstrip_spec (s : list ascii) :
  exists ws, s = ws ++ lstrip s /\ whitespace ws.
Proof.
  induction s as [|c s (ws & Hs & Hws)];
    [exists []; split; [reflexivity|constructor]|].
  simpl. destruct (is_space c) eqn:Hc.
  - exists (c :: ws). split; [simpl; congruence|].
    constructor; [by apply space_spec|done].
  - exists []. split; [reflexivity|constructor].
Qed.

Lemma strip_spec (s : list ascii) :
  exists before after,
    s = before ++ strip s ++ after /\ whitespace before /\ whitespace after.
Proof.
  destruct (lstrip_spec s) as (before & Hs & Hb).
  destruct (lstrip_spec (rev (lstrip s))) as (ws & Hr & Hws).
  exists before, (rev ws). split; [|split; [done|]].
  - unfold strip. rewrite <- rev_app_distr, <- Hr, rev_involutive. exact Hs.
  - unfold whitespace. apply Forall_rev. exact Hws.
Qed.

Lemma lstrip_solid (t u : list ascii) : solid t -> lstrip (t ++ u) = t ++ u.
Proof.
  intros [Hne Ht]. destruct Ht as [|c t Hc _]; [done|].
  simpl. now rewrite Hc.
Qed.

Lemma solid_rev (t : list ascii) : solid t -> solid (rev t).
Proof.
  intros [Hne Ht]. split.
  - intros H. apply Hne. by rewrite <- (rev_involutive t), H.
  - by apply Forall_rev.
Qed.

Lemma strip_solid (before t after : list ascii) :
  whitespace before -> whitespace after -> solid t ->
  strip (before ++ t ++ after) = t.
Proof.
  intros Hb Ha Ht. unfold strip.
  rewrite lstrip_whitespace, lstrip_solid by done.
  rewrite rev_app_distr, lstrip_whitespace by by apply Forall_rev.
  rewrite <- (app_nil_r (rev t)), lstrip_solid by by apply solid_rev.
  by rewrite app_nil_r, rev_involutive.
Qed.

Lemma solid_whitespace (t : list ascii) : solid t -> whitespace t -> False.
Proof.
  intros [Hne Ht] Hw. destruct Ht as [|c t Hc _]; [done|].
  inversion Hw as [|c' t' Hs%space_spec]; congruence.
Qed.

(** *** Digits *)

Lemma digits_rest_run (d ds tail : list ascii) (acc n : Z) :
  digit_run d ds ->
  match tail with
  | [] => True
  | c :: _ => is_digit c = false /\ Ascii.eqb c "_" = false
  end ->
  digits_rest (d ++ tail) acc n = (decimal_from acc ds, n + len ds, tail).
Proof.
  intros Hd Htail. revert acc n.
  induction Hd as [|c s ds Hc _ IH|c s ds Hc _ IH]; intros acc n;
    try (pose proof (digit_value_spec c Hc) as Hv; apply digit_spec in Hc).
  - cbn [app]. replace (n + len []) with n by (unfold len; simpl; lia).
    destruct tail as [|c tail]; [reflexivity|].
    cbn [digits_rest]. destruct Htail as [-> ->]. reflexivity.
  - cbn [app digits_rest]. rewrite Hc, IH, Hv. unfold len. cbn [length].
    f_equal. f_equal. lia.
  - change (("_"%char :: c :: s) ++ tail) with ("_"%char :: c :: s ++ tail).
    cbn [digits_rest]. change (is_digit "_") with false.
    change (Ascii.eqb "_" "_") with true. cbv iota.
    rewrite Hc, IH, Hv. unfold len. cbn [length]. f_equal. f_equal. lia.
Qed.

Lemma digits_rest_spec (s : list ascii) (acc n m k : Z) (rest : list ascii) :
  digits_rest s acc n = (m, k, rest) ->
  exists d ds,
    s = d ++ rest /\ digit_run d ds
    /\ m = decimal_from acc ds /\ k = n + len ds.
Proof.
  remember (length s) as N eqn:HN.
  assert (Hle : (length s <= N)%nat) by lia. clear HN.
  revert s acc n Hle.
  induction N as [|N IH]; intros s acc n Hle.
  - destruct s; [|simpl in Hle; lia].
    simpl. intros [= <- <- <-]. exists [], []. repeat split; [constructor|].
    unfold len. simpl. lia.
  - destruct s as [|c s].
    { simpl. intros [= <- <- <-]. exists [], []. repeat split; [constructor|].
      unfold len. simpl. lia. }
    simpl in Hle. cbn [digits_rest].
    destruct (is_digit c) eqn:Hc.
    + apply digit_spec in Hc. rewrite (digit_value_spec c Hc).
      intros Hr. apply IH in Hr as (d & ds & -> & Hd & -> & ->); [|lia].
      exists (c :: d), (c :: ds). repeat split; [by constructor|].
      unfold len. simpl length. lia.
    + destruct (Ascii.eqb c "_") eqn:Hu.
      * apply Ascii.eqb_eq in Hu as ->.
        destruct s as [|d' s].
        { intros [= <- <- <-]. exists [], []. repeat split; [constructor|].
          unfold len. simpl. lia. }
        destruct (is_digit d') eqn:Hd'.
        -- apply digit_spec in Hd'. rewrite (digit_value_spec d' Hd').
           intros Hr. simpl in Hle.
           apply IH in Hr as (d & ds & -> & Hd & -> & ->); [|lia].
           exists ("_"%char :: d' :: d), (d' :: ds).
           repeat split; [by constructor|].
           unfold len. simpl length. lia.
        -- intros [= <- <- <-]. exists [], []. repeat split; [constructor|].
           unfold len. simpl. lia.
      * intros [= <- <- <-]. exists [], []. repeat split; [constructor|].
        unfold len. simpl. lia.
Qed.

Lemma digitpart_run (d ds tail : list ascii) (acc : Z) :
  digitpart_text d ds ->
  match tail with
  | [] => True
  | c :: _ => is_digit c = false /\ Ascii.eqb c "_" = false
  end ->
  digitpart (d ++ tail) acc = Some (decimal_from acc ds, len ds, tail).
Proof.
  intros [c s ds' Hc Hs] Htail. cbn [app digitpart].
  rewrite (digit_value_spec c Hc). apply digit_spec in Hc. rewrite Hc.
  rewrite (digits_rest_run s ds') by done.
  do 3 f_equal. unfold len. simpl length. lia.
Qed.

Lemma digitpart_spec (s : list ascii) (acc m k : Z) (rest : list ascii) :
  digitpart s acc = Some (m, k, rest) ->
  exists d ds,
    s = d ++ rest /\ digitpart_text d ds
    /\ m = decimal_from acc ds /\ k = len ds.
Proof.
  destruct s as [|c s]; [done|]. cbn [digitpart].
  destruct (is_digit c) eqn:Hc; [|done].
  apply digit_spec in Hc. rewrite (digit_value_spec c Hc).
  intros [= (d & ds & -> & Hd & -> & ->)%digits_rest_spec].
  exists (c :: d), (c :: ds). split; [reflexivity|].
  split; [by constructor|]. split; [reflexivity|].
  unfold len. cbn [length]. lia.
Qed.

Lemma digitpart_None (tail : list ascii) (acc : Z) :
  match tail with
  | [] => True
  | c :: _ => is_digit c = false /\ Ascii.eqb c "_" = false
  end ->
  digitpart tail acc = None.
Proof. destruct tail as [|c tail]; [done|]. simpl. by intros [-> _]. Qed.

Lemma digitpart_text_solid (d ds : list ascii) :
  digitpart_text d ds -> solid d.
Proof.
  intros [c s ds' Hc%digit_spec Hs]. split; [done|].
  constructor; [by apply is_digit_plain|].
  induction Hs as [|c' s' ds'' Hc'%digit_spec _ IH|c' s' ds'' Hc'%digit_spec _ IH];
    [constructor|..].
  - constructor; [by apply is_digit_plain|done].
  - constructor; [reflexivity|]. constructor; [by apply is_digit_plain|done].
Qed.

(** *** Sign and exponent *)

Lemma sign_spec (s body : list ascii) (neg : bool) :
  sign s = (neg, body) -> exists sg, s = sg ++ body /\ sign_text sg neg.
Proof.
  destruct s as [|c s]; simpl.
  - intros [= <- <-]. exists []. split; [done|constructor].
  - destruct (Ascii.eqb c "-") eqn:Hm.
    { apply Ascii.eqb_eq in Hm as ->. intros [= <- <-].
      exists ["-"%char]. split; [done|constructor]. }
    destruct (Ascii.eqb c "+") eqn:Hp.
    { apply Ascii.eqb_eq in Hp as ->. intros [= <- <-].
      exists ["+"%char]. split; [done|constructor]. }
    intros [= <- <-]. exists []. split; [done|constructor].
Qed.

Lemma sign_text_app (sg body : list ascii) (neg : bool) :
  sign_text sg neg ->
  match body with
  | [] => True
  | c :: _ => Ascii.eqb c "-" = false /\ Ascii.eqb c "+" = false
  end ->
  sign (sg ++ body) = (neg, body).
Proof.
  intros [] Hbody; [|reflexivity..].
  destruct body as [|c body]; [reflexivity|].
  simpl. by destruct Hbody as [-> ->].
Qed.

Lemma digitpart_text_head (d ds : list ascii) :
  digitpart_text d ds -> exists c s, d = c :: s /\ is_digit c = true.
Proof. intros [c s ds' Hc%digit_spec _]. by exists c, s. Qed.

Lemma exponent_text_head (ex : list ascii) (x : Z) :
  exponent_text ex x ->
  match ex with
  | [] => True
  | c :: _ => is_digit c = false /\ Ascii.eqb c "_" = false
  end.
Proof.
  intros [|c sg neg d ds Hc%exponent_mark_spec _ _]; [done|].
  split; by apply lower_e_plain.
Qed.

Lemma exponent_run (ex : list ascii) (x m e : Z) :
  exponent_text ex x -> exponent ex m e = Some (m, e + x).
Proof.
  intros [|c sg neg d ds Hc%exponent_mark_spec Hsg Hd].
  - simpl. by rewrite Z.add_0_r.
  - simpl. rewrite Hc. change (Ascii.eqb "e" "e") with true. cbv iota.
    destruct (digitpart_text_head _ _ Hd) as (c' & s' & Hd' & Hc').
    rewrite (sign_text_app sg d neg Hsg).
    2:{ rewrite Hd'. split; by apply is_digit_plain. }
    rewrite <- (app_nil_r d), (digitpart_run d ds [] 0 Hd I).
    reflexivity.
Qed.

Lemma exponent_spec (s : list ascii) (m e m' e' : Z) :
  exponent s m e = Some (m', e') ->
  m' = m /\ exists x, exponent_text s x /\ e' = e + x.
Proof.
  destruct s as [|c s]; simpl.
  - intros [= <- <-]. split; [done|]. exists 0. split; [constructor|lia].
  - destruct (Ascii.eqb (lower c) "e") eqn:Hc; [|done].
    apply Ascii.eqb_eq, exponent_mark_spec in Hc.
    destruct (sign s) as [neg s'] eqn:Hs.
    apply sign_spec in Hs as (sg & -> & Hsg).
    destruct (digitpart s' 0) as [[[x k] rest]|] eqn:Hd; [|done].
    destruct rest; [|done]. intros [= <- <-].
    apply digitpart_spec in Hd as (d & ds & -> & Hd & -> & _).
    split; [done|]. rewrite app_nil_r.
    eexists. split; [by econstructor|]. reflexivity.
Qed.

Lemma exponent_text_solid (ex : list ascii) (x : Z) :
  exponent_text ex x -> Forall (fun c => is_space c = false) ex.
Proof.
  intros [|c sg neg d ds Hc%exponent_mark_spec Hsg Hd]; [constructor|].
  constructor; [by apply lower_e_plain|].
  apply Forall_app. split.
  - destruct Hsg; repeat constructor.
  - by apply (digitpart_text_solid d ds).
Qed.

(** *** Numbers *)

Lemma decimal_app (di df : list ascii) :
  decimal (di ++ df) = decimal_from (decimal di) df.
Proof. unfold decimal, decimal_from. apply fold_left_app. Qed.

Lemma floatnumber_run (body : list ascii) (m e : Z) :
  floatnumber_text body m e -> floatnumber body = Some (m, e).
Proof.
  intros [i di ex x Hi Hex|i di ex x Hi Hex|i di f df ex x Hi Hf Hex
         |f df ex x Hf Hex]; unfold floatnumber.
  - rewrite (digitpart_run i di ex 0 Hi (exponent_text_head _ _ Hex)).
    fold (decimal di).
    destruct Hex as [|c sg neg d ds Hc Hsg Hd]; [reflexivity|].
    assert (Hp : Ascii.eqb c "." = false)
      by by apply lower_e_plain, exponent_mark_spec.
    rewrite Hp.
    by rewrite (exponent_run _ _ _ _ (exponent_some c sg neg d ds Hc Hsg Hd)).
  - rewrite (digitpart_run i di ("."%char :: ex) 0 Hi) by done.
    fold (decimal di). change (Ascii.eqb "." ".") with true. cbv iota.
    rewrite (digitpart_None ex) by by apply (exponent_text_head ex x).
    by rewrite (exponent_run ex x).
  - rewrite (digitpart_run i di ("."%char :: f ++ ex) 0 Hi) by done.
    fold (decimal di). change (Ascii.eqb "." ".") with true. cbv iota.
    rewrite (digitpart_run f df ex _ Hf (exponent_text_head _ _ Hex)).
    rewrite (exponent_run ex x) by done.
    rewrite decimal_app. do 2 f_equal. lia.
  - change (digitpart ("."%char :: f ++ ex) 0) with (@None (Z * Z * list ascii)).
    change (Ascii.eqb "." ".") with true. cbv iota.
    rewrite (digitpart_run f df ex _ Hf (exponent_text_head _ _ Hex)).
    rewrite (exponent_run ex x) by done.
    fold (decimal df). do 2 f_equal. lia.
Qed.

Lemma floatnumber_spec (body : list ascii) (m e : Z) :
  floatnumber body = Some (m, e) -> floatnumber_text body m e.
Proof.
  unfold floatnumber.
  destruct (digitpart body 0) as [[[i k] rest]|] eqn:Hi.
  - apply digitpart_spec in Hi as (d & di & -> & Hd & -> & _).
    fold (decimal di).
    destruct rest as [|c rest].
    { intros [= <- <-]. apply number_integer; [exact Hd|constructor]. }
    destruct (Ascii.eqb c ".") eqn:Hc.
    + apply Ascii.eqb_eq in Hc as ->.
      destruct (digitpart rest (decimal di)) as [[[m' n] rest']|] eqn:Hf.
      * apply digitpart_spec in Hf as (f & df & -> & Hf & -> & ->).
        intros (-> & x & Hx & ->)%exponent_spec.
        rewrite <- decimal_app.
        replace (- len df + x) with (x - len df) by lia.
        by apply number_fraction.
      * intros (-> & x & Hx & ->)%exponent_spec. simpl.
        by apply number_integer_point.
    + intros (-> & x & Hx & ->)%exponent_spec. simpl.
      by apply number_integer.
  - destruct body as [|c rest]; [done|].
    destruct (Ascii.eqb c ".") eqn:Hc; [|done].
    apply Ascii.eqb_eq in Hc as ->.
    destruct (digitpart rest 0) as [[[m' n] rest']|] eqn:Hf; [|done].
    apply digitpart_spec in Hf as (f & df & -> & Hf & -> & ->).
    intros (-> & x & Hx & ->)%exponent_spec.
    fold (decimal df).
    replace (- len df + x) with (x - len df) by lia.
    by apply number_point_fraction.
Qed.

Lemma floatnumber_text_head (body : list ascii) (m e : Z) :
  floatnumber_text body m e ->
  exists c s, body = c :: s /\ (is_digit c = true \/ c = "."%char).
Proof.
  intros [i di ex x Hi Hex|i di ex x Hi Hex|i di f df ex x Hi Hf Hex
         |f df ex x Hf Hex];
    try (destruct (digitpart_text_head _ _ Hi) as (c & s & -> & Hc);
         eexists c, _; split; [reflexivity|by left]).
  eexists _, _. split; [reflexivity|by right].
Qed.

Lemma floatnumber_text_solid (body : list ascii) (m e : Z) :
  floatnumber_text body m e -> Forall (fun c => is_space c = false) body.
Proof.
  intros [i di ex x Hi Hex|i di ex x Hi Hex|i di f df ex x Hi Hf Hex
         |f df ex x Hf Hex];
    repeat first
      [ apply Forall_app; split
      | apply Forall_cons; split; [reflexivity|]
      | by apply (digitpart_text_solid _ _ Hi)
      | by apply (digitpart_text_solid _ _ Hf)
      | by apply (exponent_text_solid _ _ Hex) ].
Qed.

(** *** Words *)

Lemma spells_lowercase (body : list ascii) (w : string) :
  Forall (fun x => In x ["i"; "n"; "f"; "t"; "y"; "a"]%char)
    (String.list_ascii_of_string w) ->
  spells body w <-> lowercase body = w.
Proof.
  unfold spells, lowercase. revert body.
  induction w as [|x w IH]; intros body Hw.
  - destruct body as [|c body]; simpl; split; try done.
    intros H. inversion H.
  - apply Forall_cons in Hw as [Hx Hw].
    destruct body as [|c body]; simpl.
    { split; [intros H; inversion H|done]. }
    split.
    + intros H. inversion H as [|? ? ? ? Hc Hb]; subst.
      apply (same_letter_spec c x Hx) in Hc. apply (IH body Hw) in Hb.
      by rewrite Hc, Hb.
    + intros [= Hc Hb]. constructor.
      * by apply (same_letter_spec c x Hx).
      * by apply (IH body Hw).
Qed.

Lemma spells_word (body : list ascii) :
  (spells body "inf" <-> lowercase body = "inf")
  /\ (spells body "infinity" <-> lowercase body = "infinity")
  /\ (spells body "nan" <-> lowercase body = "nan").
Proof.
  split; [|split]; apply spells_lowercase; simpl;
    repeat (apply List.Forall_cons; [tauto|]); apply List.Forall_nil.
Qed.

Lemma lowercase_solid (body : list ascii) (w : string) :
  lowercase body = w ->
  Forall (fun c => is_space c = false) (String.list_ascii_of_string w) ->
  Forall (fun c => is_space c = false) body.
Proof.
  intros <-. unfold lowercase. rewrite list_ascii_of_string_of_list_ascii.
  induction body as [|c body IH]; [constructor|].
  simpl. intros [Hc Hb]%Forall_cons.
  constructor; [by apply is_space_lower | by apply IH].
Qed.

Lemma lowercase_head (body : list ascii) (w : string) :
  lowercase body = w ->
  match w with
  | String a _ => exists c s, body = c :: s /\ lower c = a
  | EmptyString => body = []
  end.
Proof.
  intros <-. destruct body as [|c body]; [done|]. simpl. by exists c, body.
Qed.

Lemma number_is_no_word (body : list ascii) (m e : Z) (w : string) :
  floatnumber_text body m e ->
  match w with
  | String a _ => is_digit a = false /\ a <> "."%char
  | EmptyString => True
  end ->
  String.eqb (lowercase body) w = false.
Proof.
  intros (c & s & -> & Hc)%floatnumber_text_head Hw.
  apply String.eqb_neq. intros Heq.
  apply lowercase_head in Heq. destruct w as [|a w]; [done|].
  destruct Heq as (c' & s' & [= <- <-] & Ha). destruct Hw as [Hd Hp].
  destruct Hc as [Hc| ->].
  - destruct (is_digit_plain c Hc) as (_ & Hl & _). congruence.
  - by apply Hp.
Qed.

(** *** The float of a text *)

Lemma floatvalue_text_solid (t : list ascii) (v : float) :
  floatvalue_text t v -> solid t.
Proof.
  assert (Hsign : forall sg neg, sign_text sg neg ->
            Forall (fun c => is_space c = false) sg).
  { intros sg neg []; repeat constructor. }
  intros [sg neg body m e Hsg Hb|sg neg body Hsg Hw|sg neg body Hsg Hw];
    destruct (spells_word body) as (Hinf & Hinfinity & Hnan);
    try rewrite Hinf, Hinfinity in Hw; try rewrite Hnan in Hw.
  - split.
    + destruct (floatnumber_text_head _ _ _ Hb) as (c & s & -> & _).
      by destruct sg.
    + apply Forall_app. split; [by apply (Hsign sg neg)|].
      by apply (floatnumber_text_solid body m e).
  - split.
    + destruct Hw as [Hw|Hw]; apply lowercase_head in Hw as (c & s & -> & _);
        by destruct sg.
    + apply Forall_app. split; [by apply (Hsign sg neg)|].
      destruct Hw as [Hw|Hw]; apply (lowercase_solid _ _ Hw); repeat constructor.
  - split.
    + apply lowercase_head in Hw as (c & s & -> & _). by destruct sg.
    + apply Forall_app. split; [by apply (Hsign sg neg)|].
      apply (lowercase_solid _ _ Hw); repeat constructor.
Qed.

Lemma floatvalue_run (t : list ascii) (v : float) :
  floatvalue_text t v ->
  forall before after, whitespace before -> whitespace after ->
    float_from_string_inner (before ++ t ++ after) = Some v.
Proof.
  intros Ht before after Hb Ha. unfold float_from_string_inner.
  rewrite (strip_solid before t after Hb Ha (floatvalue_text_solid t v Ht)).
  destruct Ht as [sg neg body m e Hsg Hn|sg neg body Hsg Hw|sg neg body Hsg Hw];
    destruct (spells_word body) as (Hinf & Hinfinity & Hnan);
    try rewrite Hinf, Hinfinity in Hw; try rewrite Hnan in Hw.
  - rewrite (sign_text_app sg body neg Hsg).
    2:{ destruct (floatnumber_text_head _ _ _ Hn) as (c & s & -> & [Hc| ->]);
          [split; by apply is_digit_plain|done]. }
    fold (lowercase body).
    rewrite !(number_is_no_word body m e) by done.
    simpl. by rewrite (floatnumber_run body m e).
  - rewrite (sign_text_app sg body neg Hsg).
    2:{ destruct Hw as [Hw|Hw]; apply lowercase_head in Hw as (c & s & -> & Hc);
          apply lower_not_sign; by left. }
    fold (lowercase body). by destruct Hw as [-> | ->].
  - rewrite (sign_text_app sg body neg Hsg).
    2:{ apply lowercase_head in Hw as (c & s & -> & Hc).
        apply lower_not_sign; by right. }
    fold (lowercase body). by rewrite Hw.
Qed.

Lemma float_from_string_inner_spec (a : list ascii) (v : float) :
  float_from_string_inner a = Some v ->
  exists before t after,
    a = before ++ t ++ after
    /\ whitespace before /\ whitespace after /\ floatvalue_text t v.
Proof.
  unfold float_from_string_inner.
  destruct (strip_spec a) as (before & after & Ha & Hb & Hafter).
  destruct (sign (strip a)) as [neg body] eqn:Hs.
  apply sign_spec in Hs as (sg & Hs & Hsg).
  fold (lowercase body). intros Hv.
  destruct (spells_word body) as (Hi & Hy & Hn).
  exists before, (sg ++ body), after.
  split; [by rewrite <- Hs|]. split; [done|]. split; [done|].
  destruct (String.eqb (lowercase body) "inf") eqn:Hinf.
  { apply String.eqb_eq, Hi in Hinf. injection Hv as <-.
    apply value_infinity; [done|by left]. }
  destruct (String.eqb (lowercase body) "infinity") eqn:Hinfinity.
  { apply String.eqb_eq, Hy in Hinfinity. injection Hv as <-.
    apply value_infinity; [done|by right]. }
  simpl in Hv.
  destruct (String.eqb (lowercase body) "nan") eqn:Hnan.
  { apply String.eqb_eq, Hn in Hnan. injection Hv as <-.
    by apply (value_nan sg neg). }
  destruct (floatnumber body) as [[m e]|] eqn:Hnum; [|done].
  injection Hv as <-. apply value_number; [done|].
  by apply floatnumber_spec.
Qed.

End Parser.

(** [float] accepts exactly the numeric texts, each with its value. *)
Lemma numeric_of_string (s : string) (v : float) :
  numeric s v <-> PyFloat.of_string s = Some v.
Proof.
  unfold numeric, PyFloat.of_string, PyFloat.of_chars, ascii_text. split.
  - intros (before & t & after & -> & Hb & Ha & Ht).
    by apply floatvalue_run.
  - apply float_from_string_inner_spec.
Qed.

Lemma blank_not_numeric (s : string) (v : float) : blank s -> ~ numeric s v.
Proof.
  unfold blank. intros Hs (before & t & after & Heq & _ & _ & Ht).
  rewrite Heq in Hs. apply Forall_app in Hs as [_ [Hs _]%Forall_app].
  exact (solid_whitespace t (floatvalue_text_solid t v Ht) Hs).
Qed.

(** * The claims *)

(** C1 fails on the sample input of the scripts' own header, in both
    scripts.  The imperative loop stores Bob's record with Alice's score,
    90.0, and the grade "Error".  The functional script stores NaN for Bob's
    score, since the Score column holds a float beside the [None], and grades
    it "F": no record of that table is graded "Error". *)
Lemma sample_graded_records :
  (exists s,
     Imperative.main [alice; bob]
       = Ok ([Graded "Alice" "A02" "Science" (Some 90%float) "A";
              Graded "Bob" "A01" "English" (Some 90%float) "Error"], s))
  /\ Functional.add_grade_column [alice; bob]
       = Ok [Graded "Alice" "A02" "Science" (Some 90%float) "A";
             Graded "Bob" "A01" "English" (Some nan) "F"]
  /\ clean_score (score_str bob) = Ok None
  /\ calculate_grade None = "Error".
Proof.
  split; [|repeat split; reflexivity].
  eexists. vm_compute. reflexivity.
Qed.

(** C2, as stated, fails in both scripts: the imperative loop catches
    ValueError only, so a score that is [None] ends the run with a TypeError;
    and neither script catches the OverflowError of an integer beyond the
    float range. *)
Lemma normalizer_raises :
  Imperative.main [Row "Bob" "A01" "English" PyNone] = Raise TypeError
  /\ clean_score (Int (10 ^ 400)) = Raise OverflowError.
Proof. split; reflexivity. Qed.

(** C2, amended: for a score that is text, a float, [None] or an integer
    within the float range, [clean_score] returns the float that [float]
    gives, or [None] when [float] raises, and never raises itself; the
    conversion of the imperative loop does as much for every such score
    but [None]: it binds [score] to the float, or leaves [score] as it was
    and clears [is_valid_score]. *)
Theorem normalizer_never_raises (x : cell) :
  in_float_range x ->
  clean_score x
    = Ok (match py_float x with Ok v => Some v | Raise _ => None end)
  /\ (x <> PyNone ->
      forall score : option float,
        Imperative.convert score x
          = Ok (match py_float x with
                | Ok v => (Some v, true)
                | Raise _ => (score, false)
                end)).
Proof.
  intros Hx. pose proof (py_float_in_range x Hx) as Hov.
  unfold clean_score, Imperative.convert.
  destruct (py_float_cases x) as [[v Hv]|[Hv|[Hv|Hv]]];
    try (rewrite Hv in *; split; [reflexivity | intros; reflexivity]).
  - rewrite Hv. split; [reflexivity|].
    intros Hn. destruct x as [s|f|z| ]; simpl in Hv; try discriminate.
    + destruct (PyFloat.of_string s); discriminate.
    + destruct (Z.abs z <? PyFloat.overflow_bound); discriminate.
    + contradiction.
  - contradiction.
Qed.

Lemma normalizer_never_raises_witness :
  clean_score (Int 90) = Ok (Some 90%float)
  /\ Imperative.convert None (Int 90) = Ok (Some 90%float, true).
Proof.
  destruct (normalizer_never_raises (Int 90)) as [Hc Hi]; [reflexivity|].
  split; [exact Hc | apply Hi; discriminate].
Defined.

(** C3 fails in the imperative script, on a table whose first score is not
    a number.  The loop catches the ValueError of [float], but the record it
    builds next reads [score], which no row has bound yet: the script ends
    with a NameError and prints no summary.  The functional script returns
    its summary of the same table: one valid score of two, and the mean of
    the single score 90.0 overall, for the class A02 and for the subject
    Science. *)
Lemma scripts_disagree :
  main [bob; alice] = Raise NameError
  /\ forall series_mean : list (option float) -> float,
       exists res,
         Functional.pipeline_processing series_mean [bob; alice] = Ok res
         /\ valid_count (Functional.stats res) = 1
         /\ total_count (Functional.stats res) = 2
         /\ overall_average (Functional.stats res) = series_mean [Some 90%float]
         /\ class_averages (Functional.stats res) !! "A02"
            = Some (series_mean [Some 90%float])
         /\ subject_averages (Functional.stats res) !! "Science"
            = Some (series_mean [Some 90%float]).
Proof.
  split; [done|]. intros series_mean. eexists. split; [reflexivity|]. done.
Qed.

(** C4: the grade classifier is total, with inclusive lower thresholds read
    from the highest down: no score gives "Error"; a float [v] gives "A" when
    [v >= 90], "B" when [80 <= v < 90], "C" when [70 <= v < 80], "D" when
    [60 <= v < 70] and "F" when [v < 60]; 90, 80, 70 and 60 themselves give
    A, B, C and D, and 89.99, 79.99, 69.99 and 59.99 give B, C, D and F.  The
    branch of the imperative loop computes the same grade. *)
Theorem calculate_grade_thresholds :
  calculate_grade None = "Error"
  /\ (forall v : float, (90 <=? v)%float = true -> calculate_grade (Some v) = "A")
  /\ (forall v : float, (80 <=? v)%float = true -> (v <? 90)%float = true ->
        calculate_grade (Some v) = "B")
  /\ (forall v : float, (70 <=? v)%float = true -> (v <? 80)%float = true ->
        calculate_grade (Some v) = "C")
  /\ (forall v : float, (60 <=? v)%float = true -> (v <? 70)%float = true ->
        calculate_grade (Some v) = "D")
  /\ (forall v : float, (v <? 60)%float = true -> calculate_grade (Some v) = "F")
  /\ List.map calculate_grade
        (List.map PyFloat.of_string
           ["100"; "90"; "89.99"; "80"; "79.99"; "70"; "69.99"; "60"; "59.99"; "0"])
      = ["A"; "A"; "B"; "B"; "C"; "C"; "D"; "D"; "F"; "F"]
  /\ (forall v : float,
        Imperative.grade_of (Some v) true = Ok (calculate_grade (Some v)))
  /\ (forall score : option float,
        Imperative.grade_of score false = Ok "Error").
Proof.
  assert (H90 : forall v c : float, (v <? c)%float = true ->
            (c <=? 90)%float = true -> (90 <=? v)%float = false)
    by (intros v c; apply ltb_leb_not_leb).
  assert (H80 : forall v c : float, (v <? c)%float = true ->
            (c <=? 80)%float = true -> (80 <=? v)%float = false)
    by (intros v c; apply ltb_leb_not_leb).
  assert (H70 : forall v c : float, (v <? c)%float = true ->
            (c <=? 70)%float = true -> (70 <=? v)%float = false)
    by (intros v c; apply ltb_leb_not_leb).
  assert (H60 : forall v c : float, (v <? c)%float = true ->
            (c <=? 60)%float = true -> (60 <=? v)%float = false)
    by (intros v c; apply ltb_leb_not_leb).
  repeat split.
  - intros v Ha. simpl. now rewrite Ha.
  - intros v Hb Hlt. simpl.
    now rewrite (H90 _ _ Hlt eq_refl), Hb.
  - intros v Hc Hlt. simpl.
    now rewrite (H90 _ _ Hlt eq_refl), (H80 _ _ Hlt eq_refl), Hc.
  - intros v Hd Hlt. simpl.
    now rewrite (H90 _ _ Hlt eq_refl), (H80 _ _ Hlt eq_refl),
      (H70 _ _ Hlt eq_refl), Hd.
  - intros v Hlt. simpl.
    now rewrite (H90 _ _ Hlt eq_refl), (H80 _ _ Hlt eq_refl),
      (H70 _ _ Hlt eq_refl), (H60 _ _ Hlt eq_refl).
Qed.

(** The thresholds at a score between 80 and 90. *)
Lemma calculate_grade_thresholds_witness :
  calculate_grade (Some 85%float) = "B".
Proof.
  destruct calculate_grade_thresholds as (_ & _ & HB & _).
  apply HB; reflexivity.
Defined.

(** C5: text that parses as a floating-point number [v] is normalized to
    [v], and text that is not numeric, the empty text for one, to the
    Invalid marker.  A text parses as [v] when it is numeric text of value
    [v]: a floatvalue of the grammar of the language, with whitespace before
    and after it.  [clean_score] returns [v] for it, and the imperative loop
    binds [score] to [v] and sets [is_valid_score]; for any other text, and
    so for a text that is empty or whitespace only, [clean_score] returns
    [None] and the loop leaves [score] as it was and clears
    [is_valid_score].  The texts of the two lists are evaluated: the first
    are numeric (among them a text with fullwidth digits and one that
    begins with a no-break space), the others are not (among them a text
    that begins with the separator of code 28). *)
Theorem normalize_text :
  (forall (s : string) (v : float),
     numeric s v ->
     clean_score (Str s) = Ok (Some v)
     /\ forall score, Imperative.convert score (Str s) = Ok (Some v, true))
  /\ (forall s : string,
        (forall v : float, ~ numeric s v) ->
        clean_score (Str s) = Ok None
        /\ forall score, Imperative.convert score (Str s) = Ok (score, false))
  /\ (forall s : string,
        blank s ->
        clean_score (Str s) = Ok None
        /\ forall score, Imperative.convert score (Str s) = Ok (score, false))
  /\ List.map (fun s => clean_score (Str s))
       ["90"; " 90 "; "+9e1"; "9_0."; "090.000"; ".5"; "-INF"; "nan"; "９０";
        String "194" (String "160" "90")]
     = List.map (fun v => Ok (Some v))
         [90; 90; 90; 90; 90; 0.5; neg_infinity; nan; 90; 90]%float
  /\ List.map (fun s => clean_score (Str s))
       [""; " "; "SomeError"; "90abc"; "9 0"; "9__0"; "_90"; "90_"; "9e";
        "."; "0x5A"; "+-90"; "infinit"; "²"; String "028" "90"]
     = repeat (Ok None) 15.
Proof.
  assert (Hnone : forall s, (forall v : float, ~ numeric s v) ->
            PyFloat.of_string s = None).
  { intros s Hs. destruct (PyFloat.of_string s) as [v|] eqn:Hv; [|done].
    by apply numeric_of_string, Hs in Hv. }
  assert (Hbad : forall s, PyFloat.of_string s = None ->
            clean_score (Str s) = Ok None
            /\ forall score, Imperative.convert score (Str s) = Ok (score, false)).
  { intros s Hs. unfold clean_score, Imperative.convert. simpl.
    by rewrite Hs. }
  split; [|split; [|split; [|split]]].
  - intros s v Hv%numeric_of_string.
    unfold clean_score, Imperative.convert. simpl. by rewrite Hv.
  - intros s Hs. by apply Hbad, Hnone.
  - intros s Hs. apply Hbad, Hnone. intros v. by apply blank_not_numeric.
  - vm_compute. reflexivity.
  - vm_compute. reflexivity.
Qed.

(** The text 90.5 is numeric by the grammar: the digitpart 90, a point and
    the digitpart 5; the text SomeError is not, and a space is blank. *)
Lemma normalize_text_witness :
  clean_score (Str "90.5") = Ok (Some 90.5%float)
  /\ clean_score (Str "SomeError") = Ok None
  /\ clean_score (Str " ") = Ok None.
Proof.
  destruct normalize_text as (Hnum & Hbad & Hblank & _).
  split; [|split].
  - apply Hnum.
    exists [], ["9"; "0"; "."; "5"]%char, [].
    split; [reflexivity|]. split; [constructor|]. split; [constructor|].
    assert (H9 : digit "9") by (unfold digit; simpl; tauto).
    assert (H0 : digit "0") by (unfold digit; simpl; tauto).
    assert (H5 : digit "5") by (unfold digit; simpl; tauto).
    exact (value_number [] false ["9"; "0"; "."; "5"]%char _ _ sign_none
             (number_fraction ["9"; "0"]%char ["9"; "0"]%char
                ["5"]%char ["5"]%char [] 0
                (digitpart_intro "9" ["0"]%char ["0"]%char H9
                   (run_digit "0" [] [] H0 run_nil))
                (digitpart_intro "5" [] [] H5 run_nil)
                exponent_none)).
  - apply Hbad. intros v Hv.
    destruct (numeric_of_string "SomeError" v) as [Hparse _].
    discriminate (Hparse Hv).
  - apply Hblank. change (List.Forall space [" "%char]).
    apply List.Forall_cons; [unfold space; simpl; tauto|apply List.Forall_nil].
Defined.

(** C6 fails in the imperative script.  On a table whose second Score cell
    is blank the reader gives NaN for it, [float] converts it, and the loop
    counts it as valid: the class A01 and the subject English, which have
    no other score, are in the mappings with the mean NaN, where the
    functional script, which drops NaN scores, leaves them out.  On a table
    whose only score is not a number the imperative script gives no mapping
    at all: it ends with a NameError, where the functional script returns
    two empty mappings. *)
Lemma group_of_missing_score :
  (exists recs s,
     main missing_score = Ok (recs, s)
     /\ valid_count s = 2
     /\ class_averages s !! "A01" = Some nan
     /\ subject_averages s !! "English" = Some nan)
  /\ (forall series_mean : list (option float) -> float,
        exists res,
          Functional.pipeline_processing series_mean missing_score = Ok res
          /\ valid_count (Functional.stats res) = 1
          /\ class_averages (Functional.stats res) !! "A01" = None
          /\ subject_averages (Functional.stats res) !! "English" = None)
  /\ main [bob] = Raise NameError
  /\ (forall series_mean : list (option float) -> float,
        exists res,
          Functional.pipeline_processing series_mean [bob] = Ok res
          /\ class_averages (Functional.stats res) = ∅
          /\ subject_averages (Functional.stats res) = ∅).
Proof.
  split; [|split; [|split]].
  - eexists _, _. split; [vm_compute; reflexivity|]. done.
  - intros series_mean. eexists. split; [reflexivity|]. done.
  - done.
  - intros series_mean. eexists. split; [reflexivity|]. done.
Qed.

(** C7 fails on the imperative script: the table [tenths] and the same rows
    in the opposite order have different overall means and different means
    of their class, 0.20000000000000004 and 0.19999999999999998. *)
Lemma permutation_changes_means :
  Permutation tenths (rev tenths)
  /\ exists recs s recs' s',
       main tenths = Ok (recs, s) /\ main (rev tenths) = Ok (recs', s')
       /\ overall_average s <> overall_average s'
       /\ class_averages s !! "A" <> class_averages s' !! "A".
Proof.
  split; [apply Permutation_rev|].
  eexists _, _, _, _. split; [vm_compute; reflexivity|].
  split; [vm_compute; reflexivity|].
  split; vm_compute; discriminate.
Qed.

(** C7, amended: for a table and a permutation of it, the valid and invalid
    counts and the classes and subjects that have a mean are the same, in
    the imperative script whenever it completes on both and in the functional
    script.  The means of the imperative script are the same as well when
    the float sums of the scores are the same in the two orders; the loop
    adds the scores in the order of the rows, and a float sum depends on
    it. *)
Theorem summary_permutation (df df' : list row) :
  Permutation df df' ->
  (forall recs s recs' s',
     main df = Ok (recs, s) -> main df' = Ok (recs', s') ->
     valid_count s = valid_count s'
     /\ invalid_count s = invalid_count s'
     /\ dom (class_averages s) = dom (class_averages s')
     /\ dom (subject_averages s) = dom (subject_averages s')
     /\ (sums_agree df df' -> s = s'))
  /\ (forall series_mean res res',
        Functional.pipeline_processing series_mean df = Ok res ->
        Functional.pipeline_processing series_mean df' = Ok res' ->
        valid_count (Functional.stats res) = valid_count (Functional.stats res')
        /\ invalid_count (Functional.stats res)
           = invalid_count (Functional.stats res')
        /\ dom (class_averages (Functional.stats res))
           = dom (class_averages (Functional.stats res'))
        /\ dom (subject_averages (Functional.stats res))
           = dom (subject_averages (Functional.stats res'))).
Proof.
  intros Hp. split.
  - intros recs s recs' s' (st & Hloop & Hsum & _)%main_Ok
      (st' & Hloop' & Hsum' & _)%main_Ok.
    destruct (loop_accumulated _ _ _ consistent_init Hloop)
      as (Hc & Hot & Hoc & Hct & Hcc & Hst & Hsc).
    destruct (loop_accumulated _ _ _ consistent_init Hloop')
      as (Hc' & Hot' & Hoc' & Hct' & Hcc' & Hst' & Hsc').
    destruct (summarize_spec df st Hc) as (s0 & Hs0 & Ho & Hca & Hsa & Hv & Ht).
    rewrite Hsum in Hs0. injection Hs0 as <-.
    destruct (summarize_spec df' st' Hc')
      as (s0 & Hs0 & Ho' & Hca' & Hsa' & Hv' & Ht').
    rewrite Hsum' in Hs0. injection Hs0 as <-.
    simpl in Hot, Hoc, Hct, Hcc, Hst, Hsc, Hot', Hoc', Hct', Hcc', Hst', Hsc'.
    assert (Hcount : overall_count st = overall_count st').
    { rewrite Hoc, Hoc'. f_equal.
      by apply len_Permutation, scores_where_Permutation. }
    assert (Hlen : len df = len df') by by apply len_Permutation.
    assert (Hclass : forall k, is_Some (class_averages s !! k)
              <-> is_Some (class_averages s' !! k)).
    { intros k. rewrite Hca, Hca', Hct, Hcc, Hct', Hcc', !lookup_empty.
      rewrite !group_mean_is_Some.
      by apply Permutation_nonempty, scores_where_Permutation. }
    assert (Hsubject : forall k, is_Some (subject_averages s !! k)
              <-> is_Some (subject_averages s' !! k)).
    { intros k. rewrite Hsa, Hsa', Hst, Hsc, Hst', Hsc', !lookup_empty.
      rewrite !group_mean_is_Some.
      by apply Permutation_nonempty, scores_where_Permutation. }
    split; [congruence|]. split; [unfold invalid_count; congruence|].
    split; [apply set_eq; intros k; by rewrite !elem_of_dom|].
    split; [apply set_eq; intros k; by rewrite !elem_of_dom|].
    intros (Hall & Hcls & Hsbj).
    destruct s as [oa ca sa vc tc], s' as [oa' ca' sa' vc' tc'].
    simpl in *. subst vc tc vc' tc'. rewrite Hcount, Hlen. f_equal.
    + by rewrite Ho, Ho', Hot, Hot', Hall, Hcount.
    + apply map_eq. intros k.
      rewrite Hca, Hca', Hct, Hcc, Hct', Hcc', !lookup_empty.
      by apply group_mean_Permutation; [apply scores_where_Permutation|].
    + apply map_eq. intros k.
      rewrite Hsa, Hsa', Hst, Hsc, Hst', Hsc', !lookup_empty.
      by apply group_mean_Permutation; [apply scores_where_Permutation|].
  - intros series_mean res res' Hres Hres'.
    destruct (pipeline_processing_spec _ _ _ Hres)
      as (_ & _ & Hca & Hsa & Hv & Ht).
    destruct (pipeline_processing_spec _ _ _ Hres')
      as (_ & _ & Hca' & Hsa' & Hv' & Ht').
    assert (Hvalid : valid_count (Functional.stats res)
              = valid_count (Functional.stats res')).
    { rewrite Hv, Hv'. by apply len_Permutation, valid_scores_Permutation. }
    assert (Hgroup : forall (l l' : list float), Permutation l l' ->
              is_Some (series_mean <$> group_values None (Some <$> l))
              <-> is_Some (series_mean <$> group_values None (Some <$> l'))).
    { intros l l' Hl. destruct l as [|x l], l' as [|x' l']; try done.
      - by apply Permutation_nil in Hl.
      - by apply Permutation_nil_r in Hl. }
    split; [done|].
    split; [unfold invalid_count; rewrite Hvalid, Ht, Ht';
            f_equal; by apply len_Permutation|].
    split; apply set_eq; intros k; rewrite !elem_of_dom.
    + rewrite Hca, Hca'. by apply Hgroup, valid_scores_Permutation.
    + rewrite Hsa, Hsa'. by apply Hgroup, valid_scores_Permutation.
Qed.

(** The scenario with its two valid rows exchanged: 90 + 80 and 80 + 90 are
    the same float, and so are the summaries. *)
Lemma summary_permutation_witness :
  exists recs s recs',
    main scenario = Ok (recs, s)
    /\ main [Row "Ben" "A" "Science" (Str "80"); Row "Ann" "A" "Science" (Str "90");
             Row "Cy" "B" "English" (Str "bad")] = Ok (recs', s).
Proof.
  set (df' := [Row "Ben" "A" "Science" (Str "80"); Row "Ann" "A" "Science" (Str "90");
               Row "Cy" "B" "English" (Str "bad")]).
  assert (Hp : Permutation scenario df') by apply perm_swap.
  destruct (main scenario) as [[recs s]|] eqn:Hmain; [|by vm_compute in Hmain].
  destruct (main df') as [[recs' s']|] eqn:Hmain'; [|by vm_compute in Hmain'].
  destruct (summary_permutation scenario df' Hp) as [Himp _].
  destruct (Himp recs s recs' s' Hmain Hmain') as (_ & _ & _ & _ & Hs).
  exists recs, s, recs'. split; [done|]. rewrite Hs; [done|].
  assert (H90 : converted (Row "Ann" "A" "Science" (Str "90")) = Some 90%float)
    by done.
  assert (H80 : converted (Row "Ben" "A" "Science" (Str "80")) = Some 80%float)
    by done.
  assert (Hbad : converted (Row "Cy" "B" "English" (Str "bad")) = None) by done.
  unfold sums_agree, scenario, df', scores_where, in_group, everyone.
  rewrite H90, H80, Hbad. cbn [student_class subject].
  split; [done|].
  split; intros k; by destruct (bool_decide (_ = k)).
Defined.

(** C8 fails on the imperative script: the aggregation of [tenths] is not
    the merge of the aggregations of its first row and of its two other
    rows: the overall sum is (0.1 + 0.2) + 0.3 in the one and
    0.1 + (0.2 + 0.3) in the other. *)
Lemma concatenation_is_not_merge :
  exists st1 st2 st,
    loop init (take 1 tenths) = Ok st1
    /\ loop init (drop 1 tenths) = Ok st2
    /\ loop init (take 1 tenths ++ drop 1 tenths) = Ok st
    /\ aggregation_of tenths st
        <> merge (aggregation_of (take 1 tenths) st1)
                 (aggregation_of (drop 1 tenths) st2).
Proof.
  eexists _, _, _. split; [vm_compute; reflexivity|].
  split; [vm_compute; reflexivity|]. split; [vm_compute; reflexivity|].
  intros Heq. apply (f_equal (fun a => acc_sum (overall a))) in Heq.
  vm_compute in Heq. discriminate Heq.
Qed.

(** C8, amended: when the loop completes on two tables it completes on
    their concatenation, and the counts of the aggregation it builds there
    (the count of every group, the overall count, the valid and invalid
    counts) are the pairwise sums of the counts of the two aggregations, so
    that the groups are those of the one or the other.  The sums merge as
    well, and the aggregation is the merge of the two, when adding the
    scores of the second table one by one to a sum of the first gives the
    float that adding their sum gives; in general the two differ in the
    rounding. *)
Theorem concatenation_merge (df1 df2 : list row) (st1 st2 : state) :
  loop init df1 = Ok st1 -> loop init df2 = Ok st2 ->
  exists st,
    loop init (df1 ++ df2) = Ok st
    /\ counts (aggregation_of (df1 ++ df2) st)
        = counts (merge (aggregation_of df1 st1) (aggregation_of df2 st2))
    /\ (sums_merge df1 df2 ->
        aggregation_of (df1 ++ df2) st
        = merge (aggregation_of df1 st1) (aggregation_of df2 st2)).
Proof.
  intros H1 H2.
  destruct (loop_continue _ _ _ _ H1 H2)
    as (st & Hst & _ & _ & _ & Hot & Hoc & Hct & Hcc & Hst' & Hsc).
  destruct (loop_accumulated _ _ _ consistent_init H1)
    as (_ & Hot1 & Hoc1 & Hct1 & Hcc1 & Hst1 & Hsc1).
  destruct (loop_accumulated _ _ _ consistent_init H2)
    as (_ & Hot2 & Hoc2 & Hct2 & Hcc2 & Hst2 & Hsc2).
  simpl in Hot1, Hoc1, Hct1, Hcc1, Hst1, Hsc1, Hot2, Hoc2, Hct2, Hcc2, Hst2, Hsc2.
  assert (Hclass : forall k,
            map_zip_with Accumulator (class_totals st) (class_counts st) !! k
            = group_accumulator
                (group_total (group_total None
                   (scores_where (in_group student_class k) df1))
                   (scores_where (in_group student_class k) df2))
                (group_count (group_count None
                   (scores_where (in_group student_class k) df1))
                   (scores_where (in_group student_class k) df2))).
  { intros k. by rewrite map_lookup_zip_with, Hct, Hcc, Hct1, Hcc1, !lookup_empty. }
  assert (Hsubject : forall k,
            map_zip_with Accumulator (subject_totals st) (subject_counts st) !! k
            = group_accumulator
                (group_total (group_total None
                   (scores_where (in_group subject k) df1))
                   (scores_where (in_group subject k) df2))
                (group_count (group_count None
                   (scores_where (in_group subject k) df1))
                   (scores_where (in_group subject k) df2))).
  { intros k. by rewrite map_lookup_zip_with, Hst', Hsc, Hst1, Hsc1, !lookup_empty. }
  assert (Hmerge : forall (t1 t2 : gmap string float) (c1 c2 : gmap string Z) k,
            merge_groups (map_zip_with Accumulator t1 c1)
                         (map_zip_with Accumulator t2 c2) !! k
            = union_with (fun x y => Some (merge_accumulators x y))
                (group_accumulator (t1 !! k) (c1 !! k))
                (group_accumulator (t2 !! k) (c2 !! k))).
  { intros t1 t2 c1 c2 k. unfold merge_groups.
    by rewrite lookup_union_with, !map_lookup_zip_with. }
  exists st. split; [done|]. split.
  - assert (Hc : acc_count <$> by_class (aggregation_of (df1 ++ df2) st)
              = acc_count <$> by_class (merge (aggregation_of df1 st1)
                                              (aggregation_of df2 st2))).
    { apply map_eq. intros k. cbn -[merge_groups].
      rewrite !lookup_fmap, Hclass, Hmerge, Hct1, Hcc1, Hct2, Hcc2, !lookup_empty.
      apply group_accumulator_counts. }
    assert (Hs : acc_count <$> by_subject (aggregation_of (df1 ++ df2) st)
              = acc_count <$> by_subject (merge (aggregation_of df1 st1)
                                                (aggregation_of df2 st2))).
    { apply map_eq. intros k. cbn -[merge_groups].
      rewrite !lookup_fmap, Hsubject, Hmerge, Hst1, Hsc1, Hst2, Hsc2, !lookup_empty.
      apply group_accumulator_counts. }
    unfold counts. rewrite Hc, Hs. cbn -[merge_groups].
    rewrite Hoc, Hoc1, Hoc2, !len_app.
    replace (len df1 + len df2 -
             (0 + len (scores_where everyone df1) + len (scores_where everyone df2)))
      with (len df1 - (0 + len (scores_where everyone df1)) +
            (len df2 - (0 + len (scores_where everyone df2)))) by lia.
    by rewrite !Z.add_0_l.
  - intros (Hall & Hcls & Hsbj).
    assert (Hc : by_class (aggregation_of (df1 ++ df2) st)
              = by_class (merge (aggregation_of df1 st1) (aggregation_of df2 st2))).
    { apply map_eq. intros k. cbn -[merge_groups].
      rewrite Hclass, Hmerge, Hct1, Hcc1, Hct2, Hcc2, !lookup_empty.
      apply group_accumulator_merge, Hcls. }
    assert (Hs : by_subject (aggregation_of (df1 ++ df2) st)
              = by_subject (merge (aggregation_of df1 st1) (aggregation_of df2 st2))).
    { apply map_eq. intros k. cbn -[merge_groups].
      rewrite Hsubject, Hmerge, Hst1, Hsc1, Hst2, Hsc2, !lookup_empty.
      apply group_accumulator_merge, Hsbj. }
    unfold merges in Hall.
    unfold aggregation_of, merge, merge_accumulators in *. cbn -[merge_groups] in *.
    rewrite Hc, Hs, Hot, Hoc, Hot1, Hoc1, Hot2, Hoc2, Hall, !len_app.
    f_equal; f_equal; lia.
Qed.

(** The scenario as its first row and its two other rows: 90 + 80 is the
    same float either way. *)
Lemma concatenation_merge_witness :
  exists st1 st2 st,
    loop init (take 1 scenario) = Ok st1
    /\ loop init (drop 1 scenario) = Ok st2
    /\ loop init scenario = Ok st
    /\ aggregation_of scenario st
        = merge (aggregation_of (take 1 scenario) st1)
                (aggregation_of (drop 1 scenario) st2).
Proof.
  destruct (loop init (take 1 scenario)) as [st1|] eqn:H1; [|by vm_compute in H1].
  destruct (loop init (drop 1 scenario)) as [st2|] eqn:H2; [|by vm_compute in H2].
  destruct (concatenation_merge _ _ _ _ H1 H2) as (st & Hst & _ & Hmerge).
  exists st1, st2, st. split; [done|]. split; [done|]. split; [done|].
  apply Hmerge.
  assert (H90 : converted (Row "Ann" "A" "Science" (Str "90")) = Some 90%float)
    by done.
  assert (H80 : converted (Row "Ben" "A" "Science" (Str "80")) = Some 80%float)
    by done.
  assert (Hbad : converted (Row "Cy" "B" "English" (Str "bad")) = None) by done.
  unfold sums_merge, merges, scenario, scores_where, in_group, everyone.
  cbn [take drop]. rewrite H90, H80, Hbad. cbn [student_class subject].
  split; [done|].
  split; intros k; by destruct (bool_decide (_ = k)).
Defined.

(** C9: in the functional script, for text that [float] parses to NaN
    ("nan" for one), [clean_score] returns that NaN and not [None], and
    [calculate_grade] gives it "F" and not "Error"; the graded record of the
    row holds the NaN and the "F".  Yet [filter_valid_scores] drops the row:
    the valid count, the overall mean and the means of every class and
    subject are those of the table without the row, and only the total
    count tells that the row was there. *)
Theorem nan_score_graded_but_dropped (s : string) (v : float) :
  PyFloat.of_string s = Some v -> is_nan v = true ->
  clean_score (Str s) = Ok (Some v)
  /\ calculate_grade (Some v) = "F"
  /\ Pandas.notna (Some v) = false
  /\ forall (series_mean : list (option float) -> float)
       (pre post : list row) (n c sj : string) (res : Functional.results),
       Functional.pipeline_processing series_mean (pre ++ Row n c sj (Str s) :: post)
         = Ok res ->
       Functional.processed_data res !! length pre
         = Some (Graded n c sj (Some v) "F")
       /\ exists res',
            Functional.pipeline_processing series_mean (pre ++ post) = Ok res'
            /\ overall_average (Functional.stats res)
               = overall_average (Functional.stats res')
            /\ class_averages (Functional.stats res)
               = class_averages (Functional.stats res')
            /\ subject_averages (Functional.stats res)
               = subject_averages (Functional.stats res')
            /\ valid_count (Functional.stats res)
               = valid_count (Functional.stats res')
            /\ total_count (Functional.stats res)
               = total_count (Functional.stats res') + 1.
Proof.
  intros Hs Hnan.
  assert (Hgrade : calculate_grade (Some v) = "F") by by apply calculate_grade_nan.
  split; [|split; [done|split]].
  - unfold clean_score. simpl. by rewrite Hs.
  - simpl. by rewrite Hnan.
  - intros series_mean pre post n c sj res Hres.
    set (r := Row n c sj (Str s)) in *.
    assert (Hconv : converted r = Some v) by (unfold converted; simpl; by rewrite Hs).
    assert (Hdrop : forall sel,
              valid_scores sel (pre ++ r :: post) = valid_scores sel (pre ++ post)).
    { intros sel. apply valid_scores_drop. intros w. rewrite Hconv. by intros [= <-]. }
    assert (Hdef : forall r', r' ∈ pre ++ post ->
              py_float (score_str r') <> Raise OverflowError).
    { intros r' Hin. unfold Functional.pipeline_processing in Hres.
      unfold Functional.add_grade_column in Hres.
      destruct (Pandas.apply clean_score (score_str <$> pre ++ r :: post))
        as [ys|] eqn:Hys; [|done].
      apply (apply_clean_score_Ok _ _ r' Hys).
      rewrite elem_of_app in Hin. rewrite elem_of_app, elem_of_cons. tauto. }
    destruct (pipeline_processing_defined series_mean _ Hdef) as [res' Hres'].
    destruct (pipeline_processing_spec _ _ _ Hres)
      as (Hp & Ho & Hc & Hsj & Hv & Ht).
    destruct (pipeline_processing_spec _ _ _ Hres')
      as (Hp' & Ho' & Hc' & Hsj' & Hv' & Ht').
    split.
    + rewrite Hp, list_lookup_fmap, list_lookup_middle by done. simpl.
      by rewrite (processed_Some _ _ _ Hconv), Hgrade.
    + exists res'. split; [done|]. rewrite Ho, Ho', Hv, Hv', Ht, Ht', !Hdrop.
      repeat split; try done.
      * apply map_eq. intros k. by rewrite Hc, Hc', Hdrop.
      * apply map_eq. intros k. by rewrite Hsj, Hsj', Hdrop.
      * rewrite !len_app. unfold len. simpl. lia.
Qed.

Lemma nan_score_graded_but_dropped_witness :
  clean_score (Str "nan") = Ok (Some nan)
  /\ calculate_grade (Some nan) = "F"
  /\ Pandas.notna (Some nan) = false.
Proof.
  destruct (nan_score_graded_but_dropped "nan" nan eq_refl eq_refl)
    as (Hc & Hg & Hn & _).
  by repeat split.
Defined.

(** C10: when [float] raises ValueError on the score of a row, the loop
    still builds the student record from the variable [score].  After the
    rows [pre], that variable holds the float of the last row of [pre] that
    was converted: the record gets that float with the grade "Error", and
    nothing else of the state changes.  When no row was converted before, the
    variable is unbound and building the record raises NameError; so does a
    run whose first row has such a score. *)
Theorem stale_score (pre : list row) (r : row) (st : Imperative.state) :
  py_float (score_str r) = Raise ValueError ->
  Imperative.loop Imperative.init pre = Ok st ->
  Imperative.score st = last_converted pre None
  /\ match last_converted pre None with
     | Some v =>
         Imperative.step st r
           = Ok {| Imperative.students_data :=
                     Imperative.students_data st ++
                       [Graded (name r) (student_class r) (subject r) (Some v) "Error"];
                   Imperative.class_totals := Imperative.class_totals st;
                   Imperative.class_counts := Imperative.class_counts st;
                   Imperative.subject_totals := Imperative.subject_totals st;
                   Imperative.subject_counts := Imperative.subject_counts st;
                   Imperative.overall_total := Imperative.overall_total st;
                   Imperative.overall_count := Imperative.overall_count st;
                   Imperative.score := Some v |}
     | None =>
         Imperative.step st r = Raise NameError
         /\ forall post, Imperative.main (pre ++ r :: post) = Raise NameError
     end
  /\ forall post, Imperative.main (r :: post) = Raise NameError.
Proof.
  intros Hr Hpre. pose proof (loop_score _ _ _ Hpre) as Hscore.
  simpl in Hscore. split; [exact Hscore|]. split.
  - rewrite <- Hscore. unfold Imperative.step, Imperative.convert. rewrite Hr.
    destruct (Imperative.score st) as [v|] eqn:Hs; simpl; [reflexivity|].
    split; [reflexivity|]. intros post.
    unfold Imperative.main. rewrite loop_app, Hpre. simpl.
    unfold Imperative.step, Imperative.convert. rewrite Hr, Hs. reflexivity.
  - intros post. unfold Imperative.main. simpl.
    unfold Imperative.step, Imperative.convert. rewrite Hr. reflexivity.
Qed.

Lemma stale_score_witness :
  exists st st',
    Imperative.loop Imperative.init [alice] = Ok st
    /\ Imperative.step st bob = Ok st'
    /\ Imperative.students_data st'
       = [Graded "Alice" "A02" "Science" (Some 90%float) "A";
          Graded "Bob" "A01" "English" (Some 90%float) "Error"].
Proof.
  eexists. eexists. split; [reflexivity|].
  destruct (stale_score [alice] bob _ eq_refl eq_refl) as (_ & Hstep & _).
  split; [exact Hstep | reflexivity].
Defined.

(** * Further properties of the two scripts *)

(** ** How a run ends *)

Lemma step_Ok_bound (st st' : state) (r : row) :
  step st r = Ok st' ->
  is_bound st'
  = match py_float (score_str r) with Ok _ => true | Raise _ => is_bound st end.
Proof.
  intros Hstep. unfold is_bound. rewrite (step_score _ _ _ Hstep).
  destruct (py_float (score_str r)); [|done].
  by apply bool_decide_eq_true_2.
Qed.

Lemma loop_outcome (df : list row) (st : state) :
  consistent st ->
  match loop_error (is_bound st) df with
  | None => succeeds (loop st df)
  | Some e => loop st df = Raise e
  end.
Proof.
  revert st. induction df as [|r df IH]; intros st Hc; simpl; [by eexists|].
  destruct (py_float (score_str r)) as [v|e] eqn:Hv.
  - destruct (step_succeeds st r Hc) as (st1 & Hst1 & Hc1 & _).
    { left. unfold converted. rewrite Hv. by eexists. }
    rewrite Hst1. simpl. specialize (IH st1 Hc1).
    by rewrite (step_Ok_bound _ _ _ Hst1), Hv in IH.
  - destruct e; try (unfold step, convert; by rewrite Hv).
    destruct (is_bound st) eqn:Hb.
    + destruct (step_succeeds st r Hc) as (st1 & Hst1 & Hc1 & _).
      { right. split; [done|]. unfold is_bound in Hb.
        by apply bool_decide_eq_true_1 in Hb. }
      rewrite Hst1. simpl. specialize (IH st1 Hc1).
      by rewrite (step_Ok_bound _ _ _ Hst1), Hv, Hb in IH.
    + unfold is_bound in Hb. apply bool_decide_eq_false_1 in Hb.
      unfold step, convert. rewrite Hv. simpl.
      destruct (score st) as [w|]; [|done]. destruct Hb. by eexists.
Qed.

Lemma loop_error_kind (df : list row) (bound : bool) (e : exn) :
  loop_error bound df = Some e ->
  e = NameError \/ e = TypeError \/ e = OverflowError.
Proof.
  revert bound. induction df as [|r df IH]; intros bound; simpl; [done|].
  destruct (py_float_cases (score_str r)) as [[v Hv]|[Hv|[Hv|Hv]]]; rewrite Hv.
  - apply IH.
  - destruct bound; [apply IH|]. intros [= <-]. by left.
  - intros [= <-]. right. by left.
  - intros [= <-]. right. by right.
Qed.

(** X1: how the imperative script ends is read off the scores alone.  It
    returns its records and summary on the tables for which [loop_error]
    finds no exception, and otherwise raises the exception of the first row
    whose score [float] does not convert: the TypeError or OverflowError of
    [float], or NameError for a ValueError while [score] is still unbound. *)
Theorem main_outcome (df : list row) :
  match loop_error false df with
  | None => succeeds (main df)
  | Some e => main df = Raise e
  end.
Proof.
  pose proof (loop_outcome df init consistent_init) as Hloop.
  change (is_bound init) with false in Hloop. unfold main.
  destruct (loop_error false df) as [e|].
  - by rewrite Hloop.
  - destruct Hloop as [st Hst]. rewrite Hst. simpl.
    destruct (loop_accumulated _ _ _ consistent_init Hst) as [Hc _].
    destruct (summarize_spec df st Hc) as (s & Hs & _).
    rewrite Hs. simpl. by eexists.
Qed.

(** X2: the imperative script never ends in a KeyError, a ZeroDivisionError
    or a ValueError: it returns, or raises NameError, TypeError or
    OverflowError. *)
Theorem main_raises_only (df : list row) :
  succeeds (main df)
  \/ main df = Raise NameError
  \/ main df = Raise TypeError
  \/ main df = Raise OverflowError.
Proof.
  pose proof (loop_outcome df init consistent_init) as Hloop.
  change (is_bound init) with false in Hloop. unfold main.
  destruct (loop_error false df) as [e|] eqn:He.
  - right. rewrite Hloop.
    by destruct (loop_error_kind _ _ _ He) as [->|[->| ->]]; eauto.
  - left. destruct Hloop as [st Hst]. rewrite Hst. simpl.
    destruct (loop_accumulated _ _ _ consistent_init Hst) as [Hc _].
    destruct (summarize_spec df st Hc) as (s & Hs & _).
    rewrite Hs. simpl. by eexists.
Qed.

Lemma apply_clean_score_outcome (df : list row) :
  (Pandas.apply clean_score (score_str <$> df) = Ok (converted <$> df)
   /\ forall r, r ∈ df -> py_float (score_str r) <> Raise OverflowError)
  \/ (Pandas.apply clean_score (score_str <$> df) = Raise OverflowError
      /\ exists r, r ∈ df /\ py_float (score_str r) = Raise OverflowError).
Proof.
  induction df as [|r df IH].
  - left. split; [done|]. by inversion 1.
  - rewrite !fmap_cons, apply_cons.
    destruct (py_float_cases (score_str r)) as [[v Hv]|[Hv|[Hv|Hv]]].
    4: { right.
         assert (Hc : clean_score (score_str r) = Raise OverflowError)
           by (unfold clean_score; by rewrite Hv).
         rewrite Hc. split; [done|]. exists r. split; [by left | done]. }
    all: rewrite (clean_score_defined r) by congruence.
    all: destruct IH as [[-> Hdf]|[-> (r' & Hin & Hr')]];
      [left; split; [done|] | right; split; [done|]].
    all: try (intros r' [->|Hin]%elem_of_cons; [by rewrite Hv | by apply Hdf]).
    all: exists r'; split; [by right | done].
Qed.

(** X3: the functional script is stopped by one thing only, an integer score
    beyond the float range, which raises OverflowError out of [clean_score];
    on every other table, text that is no number and missing scores
    included, it returns its results. *)
Theorem pipeline_outcome (series_mean : list (option float) -> float)
    (df : list row) :
  ((succeeds (Functional.pipeline_processing series_mean df)
    /\ forall r, r ∈ df -> py_float (score_str r) <> Raise OverflowError)
   \/ (Functional.pipeline_processing series_mean df = Raise OverflowError
       /\ exists r, r ∈ df /\ py_float (score_str r) = Raise OverflowError))
  /\ ((forall r, r ∈ df -> in_float_range (score_str r)) ->
      succeeds (Functional.pipeline_processing series_mean df)).
Proof.
  split.
  - destruct (apply_clean_score_outcome df) as [[Happly Hdf]|[Happly Hex]].
    + left. split; [by apply pipeline_processing_defined | done].
    + right. split; [|done].
      unfold Functional.pipeline_processing, Functional.add_grade_column.
      by rewrite Happly.
  - intros Hdf. apply pipeline_processing_defined.
    intros r Hr. by apply py_float_in_range, Hdf.
Qed.

(** ** The graded records *)

Lemma step_record (st st' : state) (r : row) :
  step st r = Ok st' ->
  students_data st'
  = students_data st ++
      [Graded (name r) (student_class r) (subject r) (score st')
         (calculate_grade (converted r))]
  /\ is_Some (score st').
Proof.
  unfold step, convert, converted.
  destruct (py_float (score_str r)) as [v|[]]; simpl; try done.
  - destruct (update_group _ _ (class_totals st) _) as [[ct cc]|]; simpl; [|done].
    destruct (update_group _ _ (subject_totals st) _) as [[sjt sjc]|]; simpl;
      [|done].
    intros [= <-]. simpl. by eauto.
  - destruct (score st) as [w|]; simpl; [|done].
    intros [= <-]. simpl. by eauto.
Qed.

Lemma loop_records (df : list row) (st st' : state) :
  loop st df = Ok st' ->
  students_data st' = students_data st ++ records_from (score st) df
  /\ Forall (fun g => is_Some (Score g)) (records_from (score st) df).
Proof.
  revert st. induction df as [|r df IH]; intros st; simpl.
  - intros [= <-]. by rewrite app_nil_r.
  - destruct (step st r) as [st1|] eqn:Hstep; simpl; [|done].
    intros Hloop. destruct (IH _ Hloop) as [Hdata Hall].
    destruct (step_record _ _ _ Hstep) as [Hrec Hbound].
    pose proof (step_score _ _ _ Hstep) as Hscore.
    assert (Hcur : match converted r with Some v => Some v | None => score st end
                   = score st1).
    { rewrite Hscore. unfold converted. by destruct (py_float (score_str r)). }
    rewrite Hcur. split.
    + by rewrite Hdata, Hrec, <- app_assoc.
    + by constructor.
Qed.

(** X4: when the imperative script completes, its student records are those
    of [records_from]: one record for every row, in the order of the rows,
    with the row's name, class and subject, the grade of the row's own score
    ("Error" when it is no number), and as Score a float in every case: the
    row's, or the float of the last row before it that had one. *)
Theorem students_data_spec (df : list row) (recs : list graded) (s : summary) :
  main df = Ok (recs, s) ->
  recs = records_from None df
  /\ length recs = length df
  /\ Forall (fun g => is_Some (Score g)) recs.
Proof.
  intros (st & Hloop & _ & ->)%main_Ok.
  destruct (loop_records _ _ _ Hloop) as [Hdata Hall]. simpl in Hdata, Hall.
  rewrite Hdata. split; [done|]. split; [|done].
  clear. generalize (@None float). induction df as [|r df IH]; intros prev; [done|].
  simpl. by rewrite IH.
Qed.

Lemma students_data_spec_witness :
  exists recs s,
    main scenario = Ok (recs, s)
    /\ recs = records_from None scenario /\ length recs = 3%nat.
Proof.
  destruct (main scenario) as [[recs s]|] eqn:Hmain; [|by vm_compute in Hmain].
  destruct (students_data_spec scenario recs s Hmain) as (Hrecs & Hlen & _).
  exists recs, s. split; [reflexivity|]. split; [exact Hrecs | exact Hlen].
Defined.

Lemma calculate_grade_Error (score : option float) :
  calculate_grade score = "Error" <-> score = None.
Proof.
  destruct score as [v|]; simpl; [|done].
  split; [|done].
  by destruct (90 <=? v)%float, (80 <=? v)%float, (70 <=? v)%float,
              (60 <=? v)%float.
Qed.

Lemma inferred_cases (column : list (option float)) :
  (existsb (fun x => bool_decide (is_Some x)) column = true
   /\ exists x, x ∈ column /\ is_Some x)
  \/ (existsb (fun x => bool_decide (is_Some x)) column = false
      /\ forall x, x ∈ column -> x = None).
Proof.
  induction column as [|x column IH]; simpl.
  - right. split; [done|]. by inversion 1.
  - destruct x as [v|]; simpl.
    + left. split; [done|]. exists (Some v). split; [by left | by eexists].
    + destruct IH as [[-> (x & Hin & Hx)]|[-> Hall]].
      * left. split; [done|]. exists x. split; [by right | done].
      * right. split; [done|]. intros x [->|Hin]%elem_of_cons; [done | by apply Hall].
Qed.

(** X5: the table of the functional script has one graded record for every
    row, in the order of the rows, with the row's name, class and subject;
    the Grade is [calculate_grade] of the Score that is stored; a score that
    [float] converted is stored as that float, and one that it did not is
    stored as a value that [notna] rejects. *)
Theorem processed_data_spec (df : list row) (p : list graded) :
  Functional.add_grade_column df = Ok p ->
  length p = length df
  /\ forall (i : nat) (r : row), df !! i = Some r ->
       exists g,
         p !! i = Some g
         /\ Name g = name r /\ Class_ g = student_class r /\ Subject g = subject r
         /\ Grade g = calculate_grade (Score g)
         /\ (forall v, converted r = Some v -> Score g = Some v)
         /\ (converted r = None -> Pandas.notna (Score g) = false).
Proof.
  intros ->%add_grade_column_spec. split; [by rewrite length_fmap|].
  intros i r Hi. exists (processed df r).
  split; [by rewrite list_lookup_fmap, Hi|].
  unfold processed. simpl. repeat split.
  - intros v Hv. rewrite Hv. unfold inferred. by destruct (existsb _ _).
  - intros Hv. by rewrite notna_inferred, Hv.
Qed.

Lemma processed_data_spec_witness :
  exists p, Functional.add_grade_column scenario = Ok p /\ length p = 3%nat.
Proof.
  destruct (Functional.add_grade_column scenario) as [p|] eqn:Hp;
    [|by vm_compute in Hp].
  destruct (processed_data_spec scenario p Hp) as [Hlen _].
  exists p. split; [reflexivity | exact Hlen].
Defined.

(** X6: in the table of the functional script a record is graded "Error"
    only when no score of the whole table is a number: as soon as [float]
    converts one score, the scores that it did not convert are stored as NaN
    and graded "F". *)
Theorem functional_Error_iff (df : list row) (p : list graded) (g : graded) :
  Functional.add_grade_column df = Ok p -> g ∈ p ->
  Grade g = "Error" <-> forall r, r ∈ df -> converted r = None.
Proof.
  intros ->%add_grade_column_spec (r0 & -> & Hr0)%list_elem_of_fmap.
  unfold processed, inferred. simpl. rewrite calculate_grade_Error.
  destruct (inferred_cases (converted <$> df)) as [[-> (x & Hx & Hsome)]|[-> Hall]].
  - split; [done|]. intros Hnone.
    apply list_elem_of_fmap in Hx as (r & -> & Hr).
    rewrite (Hnone r Hr) in Hsome. by destruct Hsome.
  - assert (Hnone : forall r, r ∈ df -> converted r = None).
    { intros r Hr. apply Hall, list_elem_of_fmap. by exists r. }
    by rewrite (Hnone r0 Hr0).
Qed.

Lemma functional_Error_iff_witness :
  exists p g,
    Functional.add_grade_column [bob; alice] = Ok p
    /\ p !! 0%nat = Some g /\ Name g = "Bob" /\ Grade g <> "Error".
Proof.
  destruct (Functional.add_grade_column [bob; alice]) as [p|] eqn:Hp;
    [|by vm_compute in Hp].
  destruct (p !! 0%nat) as [g|] eqn:Hg; [|by vm_compute in Hp; injection Hp as <-].
  assert (Hin : g ∈ p) by (apply list_elem_of_lookup; by exists 0%nat).
  exists p, g. split; [done|]. split; [done|]. split.
  - vm_compute in Hp. injection Hp as <-. by injection Hg as <-.
  - intros Herr.
    destruct (functional_Error_iff [bob; alice] p g Hp Hin) as [Hnone _].
    assert (Halice : alice ∈ [bob; alice]) by (right; by left).
    discriminate (Hnone Herr alice Halice).
Defined.

Lemma records_from_lookup (df : list row) (prev : option float) (i : nat)
    (r : row) (g : graded) :
  df !! i = Some r -> records_from prev df !! i = Some g ->
  Name g = name r /\ Class_ g = student_class r /\ Subject g = subject r
  /\ Grade g = calculate_grade (converted r).
Proof.
  revert prev i. induction df as [|r' df IH]; intros prev i; [done|].
  destruct i as [|i]; simpl.
  - by intros [= ->] [= <-].
  - apply IH.
Qed.

(** X7: in the imperative script a record is graded "Error" exactly when
    [float] did not convert the score of its row, and it keeps the name,
    class and subject of the row. *)
Theorem imperative_Error_iff (df : list row) (recs : list graded) (s : summary)
    (i : nat) (r : row) (g : graded) :
  main df = Ok (recs, s) -> df !! i = Some r -> recs !! i = Some g ->
  (Grade g = "Error" <-> converted r = None)
  /\ Name g = name r /\ Class_ g = student_class r /\ Subject g = subject r.
Proof.
  intros (st & Hloop & _ & ->)%main_Ok Hr Hg.
  destruct (loop_records _ _ _ Hloop) as [Hdata _]. simpl in Hdata.
  rewrite Hdata in Hg.
  destruct (records_from_lookup _ _ _ _ _ Hr Hg) as (Hn & Hc & Hs & Hgrade).
  split; [|done]. rewrite Hgrade. apply calculate_grade_Error.
Qed.

Lemma imperative_Error_iff_witness :
  exists recs s g,
    main scenario = Ok (recs, s) /\ recs !! 2%nat = Some g
    /\ Grade g = "Error" /\ Name g = "Cy".
Proof.
  destruct (main scenario) as [[recs s]|] eqn:Hmain; [|by vm_compute in Hmain].
  destruct (recs !! 2%nat) as [g|] eqn:Hg;
    [|by vm_compute in Hmain; injection Hmain as <- <-].
  destruct (imperative_Error_iff scenario recs s 2
              (Row "Cy" "B" "English" (Str "bad")) g Hmain eq_refl Hg)
    as ([_ Herr] & Hname & _).
  exists recs, s, g. split; [reflexivity|]. split; [exact Hg|].
  split; [exact (Herr eq_refl) | exact Hname].
Defined.

Lemma all_converted_defined (df : list row) (bound : bool) :
  (forall r, r ∈ df -> is_Some (converted r)) -> loop_defined bound df.
Proof.
  revert bound. induction df as [|r df IH]; intros bound Hdf; simpl; [done|].
  destruct (Hdf r) as [v Hv]; [by left|]. unfold converted in Hv.
  destruct (py_float (score_str r)) as [w|]; [|done].
  apply IH. intros r' Hr'. apply Hdf. by right.
Qed.

Lemma records_from_all_converted (df df0 : list row) (prev : option float) :
  (forall r, r ∈ df -> is_Some (converted r)) ->
  records_from prev df = processed df0 <$> df.
Proof.
  revert prev. induction df as [|r df IH]; intros prev Hdf; [done|].
  rewrite fmap_cons. simpl.
  destruct (Hdf r) as [v Hv]; [by left|].
  rewrite (processed_Some _ _ _ Hv), Hv.
  f_equal. apply IH. intros r' Hr'. apply Hdf. by right.
Qed.

(** X8: on a table all of whose scores [float] converts, the imperative
    script completes and its student records are, one for one, the graded
    records of the functional script: the same Score and the same Grade. *)
Theorem graded_records_agree (df : list row) :
  (forall r, r ∈ df -> is_Some (converted r)) ->
  exists recs s,
    main df = Ok (recs, s) /\ Functional.add_grade_column df = Ok recs.
Proof.
  intros Hdf.
  destruct (loop_defined_Ok df init consistent_init) as [st Hst].
  { by apply all_converted_defined. }
  destruct (loop_accumulated _ _ _ consistent_init Hst) as [Hc _].
  destruct (summarize_spec df st Hc) as (s & Hs & _).
  destruct (loop_records _ _ _ Hst) as [Hdata _]. simpl in Hdata.
  exists (students_data st), s. split.
  - unfold main. rewrite Hst. simpl. by rewrite Hs.
  - rewrite Hdata, (records_from_all_converted df df) by done.
    apply add_grade_column_defined. intros r Hr.
    destruct (Hdf r Hr) as [v Hv]. unfold converted in Hv.
    by destruct (py_float (score_str r)).
Qed.

Lemma graded_records_agree_witness :
  exists recs s,
    main (take 2 scenario) = Ok (recs, s)
    /\ Functional.add_grade_column (take 2 scenario) = Ok recs.
Proof.
  apply graded_records_agree.
  intros r Hr%list_elem_of_In. destruct Hr as [<-|[<-|[]]]; by eexists.
Defined.

(** ** The grades *)

Lemma SF_le_trans (x y z : spec_float) :
  SFleb x y = true -> SFleb y z = true -> SFleb x z = true.
Proof.
  unfold SFleb.
  destruct x as [sx|sx| |sx mx ex], y as [sy|sy| |sy my ey],
           z as [sz|sz| |sz mz ez];
    simpl; try discriminate; try reflexivity;
    repeat match goal with s : bool |- _ => destruct s end;
    simpl; try discriminate; try reflexivity;
    repeat match goal with
    | |- context [Z.compare ?a ?b] => destruct (Z.compare_spec a b)
    | |- context [Pos.compare_cont Eq ?a ?b] =>
        change (Pos.compare_cont Eq a b) with (Pos.compare a b);
        destruct (Pos.compare_spec a b)
    end;
    simpl; try discriminate; try reflexivity; intros; try lia.
Qed.

Lemma leb_trans (x y z : float) :
  (x <=? y)%float = true -> (y <=? z)%float = true -> (x <=? z)%float = true.
Proof. rewrite !leb_spec. apply SF_le_trans. Qed.

(** X9: the grade never falls when the score rises: for floats [v <= w]
    the grade of [w] ranks at least as high as the grade of [v]. *)
Theorem calculate_grade_monotone (v w : float) :
  (v <=? w)%float = true ->
  grade_rank (calculate_grade (Some v)) <= grade_rank (calculate_grade (Some w)).
Proof.
  intros Hvw.
  assert (Hup : forall c : float, (c <=? v)%float = true -> (c <=? w)%float = true)
    by (intros c Hc; by apply (leb_trans c v w)).
  unfold calculate_grade.
  destruct (90 <=? v)%float eqn:H90; [by rewrite (Hup _ H90)|].
  destruct (80 <=? v)%float eqn:H80.
  { rewrite (Hup _ H80). by destruct (90 <=? w)%float. }
  destruct (70 <=? v)%float eqn:H70.
  { rewrite (Hup _ H70). by destruct (90 <=? w)%float, (80 <=? w)%float. }
  destruct (60 <=? v)%float eqn:H60.
  { rewrite (Hup _ H60).
    by destruct (90 <=? w)%float, (80 <=? w)%float, (70 <=? w)%float. }
  by destruct (90 <=? w)%float, (80 <=? w)%float, (70 <=? w)%float,
              (60 <=? w)%float.
Qed.

Lemma calculate_grade_monotone_witness :
  grade_rank (calculate_grade (Some 59.5%float))
  <= grade_rank (calculate_grade (Some 60%float)).
Proof. apply calculate_grade_monotone. reflexivity. Defined.

(** X10: the grade is one of the six labels, and it is "Error" for [None]
    and for nothing else: no float, NaN and the infinities included, is
    graded "Error". *)
Theorem calculate_grade_labels (score : option float) :
  calculate_grade score ∈ ["A"; "B"; "C"; "D"; "F"; "Error"]
  /\ (calculate_grade score = "Error" <-> score = None).
Proof.
  split; [|apply calculate_grade_Error].
  destruct score as [v|]; simpl.
  - destruct (90 <=? v)%float, (80 <=? v)%float, (70 <=? v)%float,
             (60 <=? v)%float; set_solver.
  - set_solver.
Qed.

(** ** The summaries *)

Lemma group_mean_mean_of (l : list float) :
  group_mean (group_total None l) (group_count None l) = mean_of l.
Proof. by destruct l. Qed.

Lemma main_spec (df : list row) (recs : list graded) (s : summary) :
  main df = Ok (recs, s) ->
  overall_average s = default 0%float (mean_of (scores_where everyone df))
  /\ (forall k, class_averages s !! k
        = mean_of (scores_where (in_group student_class k) df))
  /\ (forall k, subject_averages s !! k
        = mean_of (scores_where (in_group subject k) df))
  /\ valid_count s = len (scores_where everyone df)
  /\ total_count s = len df.
Proof.
  intros (st & Hloop & Hsum & _)%main_Ok.
  destruct (loop_accumulated _ _ _ consistent_init Hloop)
    as (Hc & Hot & Hoc & Hct & Hcc & Hst & Hsc).
  destruct (summarize_spec df st Hc) as (s' & Hs' & Ho & Hca & Hsa & Hv & Ht).
  rewrite Hsum in Hs'. injection Hs' as <-.
  simpl in Hot, Hoc, Hct, Hcc, Hst, Hsc. rewrite Z.add_0_l in Hoc.
  split; [|split; [|split; [|split]]].
  - rewrite Ho, Hot, Hoc.
    by destruct (scores_where everyone df).
  - intros k. by rewrite Hca, Hct, Hcc, !lookup_empty, group_mean_mean_of.
  - intros k. by rewrite Hsa, Hst, Hsc, !lookup_empty, group_mean_mean_of.
  - by rewrite Hv, Hoc.
  - done.
Qed.

(** X11: the summary of the imperative script in closed form.  The overall
    average is the float sum of the converted scores, added from the left in
    the order of the rows, divided by their number, and 0 when there is
    none; the mean of a class or subject is the same over the converted
    scores of its rows, and a class or subject without one has no entry; the
    valid count is the number of converted scores. *)
Theorem imperative_summary (df : list row) (recs : list graded) (s : summary) :
  main df = Ok (recs, s) ->
  overall_average s = default 0%float (mean_of (scores_where everyone df))
  /\ (forall k, class_averages s !! k
        = mean_of (scores_where (in_group student_class k) df))
  /\ (forall k, subject_averages s !! k
        = mean_of (scores_where (in_group subject k) df))
  /\ valid_count s = len (scores_where everyone df)
  /\ invalid_count s = len df - len (scores_where everyone df).
Proof.
  intros (Ho & Hc & Hs & Hv & Ht)%main_spec.
  unfold invalid_count. rewrite Hv, Ht. by repeat split.
Qed.

Lemma imperative_summary_witness :
  exists recs s,
    main scenario = Ok (recs, s)
    /\ overall_average s = 85%float
    /\ class_averages s !! "A" = Some 85%float
    /\ class_averages s !! "B" = None
    /\ valid_count s = 2 /\ invalid_count s = 1.
Proof.
  destruct (main scenario) as [[recs s]|] eqn:Hmain; [|by vm_compute in Hmain].
  destruct (imperative_summary scenario recs s Hmain)
    as (Ho & Hc & _ & Hv & Hi).
  exists recs, s. split; [reflexivity|].
  split; [exact Ho|]. split; [exact (Hc "A")|]. split; [exact (Hc "B")|].
  split; [exact Hv | exact Hi].
Defined.

(** X12: the summary of the functional script in closed form.  The overall
    average is the library's mean of the valid scores, those that [float]
    converted to a float other than NaN, in the order of the rows; the mean
    of a class or subject is the library's mean of the valid scores of its
    rows, and a class or subject without one has no entry; the valid count
    is the number of valid scores and the total count the number of rows. *)
Theorem functional_summary (series_mean : list (option float) -> float)
    (df : list row) (res : Functional.results) :
  Functional.pipeline_processing series_mean df = Ok res ->
  overall_average (Functional.stats res)
  = series_mean (Some <$> valid_scores everyone df)
  /\ (forall k, class_averages (Functional.stats res) !! k
        = match valid_scores (in_group student_class k) df with
          | [] => None
          | l => Some (series_mean (Some <$> l))
          end)
  /\ (forall k, subject_averages (Functional.stats res) !! k
        = match valid_scores (in_group subject k) df with
          | [] => None
          | l => Some (series_mean (Some <$> l))
          end)
  /\ valid_count (Functional.stats res) = len (valid_scores everyone df)
  /\ total_count (Functional.stats res) = len df.
Proof.
  intros (_ & Ho & Hc & Hs & Hv & Ht)%pipeline_processing_spec.
  split; [done|]. split; [|split; [|done]]; intros k.
  - rewrite Hc. by destruct (valid_scores (in_group student_class k) df).
  - rewrite Hs. by destruct (valid_scores (in_group subject k) df).
Qed.

Lemma functional_summary_witness :
  exists res,
    Functional.pipeline_processing mean_from_left scenario = Ok res
    /\ valid_count (Functional.stats res) = 2
    /\ total_count (Functional.stats res) = 3
    /\ class_averages (Functional.stats res) !! "B" = None.
Proof.
  destruct (Functional.pipeline_processing mean_from_left scenario)
    as [res|] eqn:Hres; [|by vm_compute in Hres].
  destruct (functional_summary mean_from_left scenario res Hres)
    as (_ & Hc & _ & Hv & Ht).
  exists res. split; [reflexivity|].
  split; [exact Hv|]. split; [exact Ht | exact (Hc "B")].
Defined.

Lemma scores_where_length (sel : row -> bool) (df : list row) :
  len (scores_where sel df) <= len df.
Proof.
  unfold len. induction df as [|r df IH]; simpl; [done|].
  destruct (converted r); [destruct (sel r)|]; simpl; lia.
Qed.

Lemma valid_scores_length (sel : row -> bool) (df : list row) :
  len (valid_scores sel df) <= len (scores_where sel df).
Proof.
  unfold valid_scores, len. induction (scores_where sel df) as [|v l IH]; simpl;
    [done|].
  destruct (negb (is_nan v)); simpl; lia.
Qed.

(** X13: when both scripts complete on a table they count the same total,
    and the valid count of the functional script is at most that of the
    imperative one, which is at most the total: the functional script leaves
    out the scores that are NaN, which the imperative one counts. *)
Theorem valid_counts_ordered (series_mean : list (option float) -> float)
    (df : list row) (recs : list graded) (s : summary)
    (res : Functional.results) :
  main df = Ok (recs, s) ->
  Functional.pipeline_processing series_mean df = Ok res ->
  0 <= valid_count (Functional.stats res) <= valid_count s
  /\ valid_count s <= total_count s
  /\ total_count (Functional.stats res) = total_count s
  /\ ((forall r v, r ∈ df -> converted r = Some v -> is_nan v = false) ->
      valid_count (Functional.stats res) = valid_count s).
Proof.
  intros (_ & _ & _ & Hv & Ht)%main_spec
         (_ & _ & _ & _ & Hv' & Ht')%pipeline_processing_spec.
  rewrite Hv, Ht, Hv', Ht'.
  pose proof (valid_scores_length everyone df).
  pose proof (scores_where_length everyone df).
  split; [unfold len in *; lia|]. split; [done|]. split; [done|].
  intros Hnan. by rewrite valid_scores_no_nan.
Qed.

Lemma valid_counts_ordered_witness :
  exists recs s res,
    main scenario = Ok (recs, s)
    /\ Functional.pipeline_processing mean_from_left scenario = Ok res
    /\ valid_count (Functional.stats res) <= valid_count s <= total_count s.
Proof.
  destruct (main scenario) as [[recs s]|] eqn:Hmain; [|by vm_compute in Hmain].
  destruct (Functional.pipeline_processing mean_from_left scenario)
    as [res|] eqn:Hres; [|by vm_compute in Hres].
  destruct (valid_counts_ordered mean_from_left scenario recs s res Hmain Hres)
    as ([_ H1] & H2 & _).
  exists recs, s, res. split; [reflexivity|]. split; [reflexivity|].
  split; [exact H1 | exact H2].
Defined.

(** X14: the imperative script never returns a summary without a valid
    score for a table that has rows: when it completes on a table that is
    not empty, the first score is a number and the valid count is at least
    1.  The overall average 0 of the guard for no valid score is returned
    for the empty table only. *)
Theorem summary_has_valid_score (df : list row) (recs : list graded) (s : summary) :
  main df = Ok (recs, s) -> df <> [] ->
  1 <= valid_count s /\ exists r, head df = Some r /\ is_Some (converted r).
Proof.
  intros Hmain Hne.
  destruct (main_spec _ _ _ Hmain) as (_ & _ & _ & Hv & _).
  apply main_Ok in Hmain as (st & Hloop & _).
  apply loop_Ok_defined in Hloop. change (is_bound init) with false in Hloop.
  destruct df as [|r df]; [done|].
  pose proof (loop_defined_first _ _ Hloop) as [v Hr].
  split; [|exists r; split; [done | by eexists]].
  rewrite Hv. unfold everyone, len. simpl. rewrite Hr. simpl. lia.
Qed.

Lemma summary_has_valid_score_witness :
  exists recs s, main scenario = Ok (recs, s) /\ 1 <= valid_count s.
Proof.
  destruct (main scenario) as [[recs s]|] eqn:Hmain; [|by vm_compute in Hmain].
  assert (Hne : scenario <> []) by discriminate.
  destruct (summary_has_valid_score scenario recs s Hmain Hne) as [Hv _].
  exists recs, s. split; [reflexivity | exact Hv].
Defined.

Lemma scores_where_drop (sel : row -> bool) (pre post : list row) (r : row) :
  converted r = None ->
  scores_where sel (pre ++ r :: post) = scores_where sel (pre ++ post).
Proof.
  intros Hr. rewrite !scores_where_app. simpl. by rewrite Hr.
Qed.

Lemma loop_defined_insert (pre post : list row) (r : row) (bound : bool) :
  py_float (score_str r) = Raise ValueError ->
  bound = true \/ (exists r0, r0 ∈ pre /\ is_Some (converted r0)) ->
  loop_defined bound (pre ++ post) -> loop_defined bound (pre ++ r :: post).
Proof.
  intros Hr. revert bound. induction pre as [|r' pre IH]; intros bound Hb; simpl.
  - rewrite Hr. destruct Hb as [->|(r0 & Hin & _)]; [done | by inversion Hin].
  - destruct (py_float (score_str r')) as [v|[]] eqn:Hv; try done.
    + apply IH. by left.
    + intros [-> Hdef]. split; [done|]. apply IH; [by left | done].
Qed.

(** X15: a row whose score is no number contributes nothing to the
    statistics of the imperative script.  Put into a table after a row whose
    score is a number, it leaves the overall average, the means of every
    class and subject and the valid count as they were, and raises the total
    count, hence the invalid count, by one. *)
Theorem invalid_row_leaves_statistics (pre post : list row) (r : row)
    (recs : list graded) (s : summary) :
  py_float (score_str r) = Raise ValueError ->
  (exists r0, r0 ∈ pre /\ is_Some (converted r0)) ->
  main (pre ++ post) = Ok (recs, s) ->
  exists recs' s',
    main (pre ++ r :: post) = Ok (recs', s')
    /\ overall_average s' = overall_average s
    /\ class_averages s' = class_averages s
    /\ subject_averages s' = subject_averages s
    /\ valid_count s' = valid_count s
    /\ total_count s' = total_count s + 1.
Proof.
  intros Hr Hpre Hmain.
  assert (Hconv : converted r = None) by (unfold converted; by rewrite Hr).
  destruct (main_spec _ _ _ Hmain) as (Ho & Hc & Hs & Hv & Ht).
  apply main_Ok in Hmain as (st & Hloop & _).
  apply loop_Ok_defined in Hloop. change (is_bound init) with false in Hloop.
  apply (loop_defined_insert pre post r false Hr) in Hloop; [|by right].
  destruct (loop_defined_Ok _ init consistent_init Hloop) as [st' Hst'].
  destruct (loop_accumulated _ _ _ consistent_init Hst') as [Hcons _].
  destruct (summarize_spec (pre ++ r :: post) st' Hcons) as (s' & Hs' & _).
  assert (Hmain' : main (pre ++ r :: post) = Ok (students_data st', s')).
  { unfold main. rewrite Hst'. simpl. by rewrite Hs'. }
  destruct (main_spec _ _ _ Hmain') as (Ho' & Hc' & Hsj' & Hv' & Ht').
  exists (students_data st'), s'. split; [done|].
  rewrite Ho', Ho, Hv', Hv, Ht', Ht, !scores_where_drop by done.
  repeat split.
  - apply map_eq. intros k. by rewrite Hc', Hc, scores_where_drop.
  - apply map_eq. intros k. by rewrite Hsj', Hs, scores_where_drop.
  - rewrite !len_app. unfold len. simpl. lia.
Qed.

Lemma invalid_row_leaves_statistics_witness :
  exists recs s recs' s',
    main (take 2 scenario) = Ok (recs, s)
    /\ main scenario = Ok (recs', s')
    /\ overall_average s' = overall_average s
    /\ total_count s' = total_count s + 1.
Proof.
  destruct (main (take 2 scenario)) as [[recs s]|] eqn:Hmain;
    [|by vm_compute in Hmain].
  assert (Hpre : exists r0, r0 ∈ take 2 scenario /\ is_Some (converted r0)).
  { exists (Row "Ann" "A" "Science" (Str "90")). split; [by left | by eexists]. }
  destruct (invalid_row_leaves_statistics (take 2 scenario) []
              (Row "Cy" "B" "English" (Str "bad")) recs s eq_refl Hpre Hmain)
    as (recs' & s' & Hmain' & Ho & _ & _ & _ & Ht).
  exists recs, s, recs', s'. split; [reflexivity|].
  split; [exact Hmain'|]. split; [exact Ho | exact Ht].
Defined.

(** ** The counts of the groups *)

Lemma sum_counts_insert_new (counts : gmap string Z) (k : string) (c : Z) :
  counts !! k = None -> sum_counts (<[k := c]> counts) = c + sum_counts counts.
Proof.
  intros Hk. unfold sum_counts. apply map_fold_insert_L; [|done].
  intros; lia.
Qed.

Lemma sum_counts_insert (counts : gmap string Z) (k : string) (c : Z) :
  sum_counts (<[k := c]> counts)
  = c + sum_counts counts - default 0 (counts !! k).
Proof.
  destruct (counts !! k) as [x|] eqn:Hk; simpl.
  - rewrite <- (insert_delete_eq counts k c).
    rewrite <- (insert_id counts k x Hk) at 2.
    rewrite <- (insert_delete_eq counts k x).
    rewrite !sum_counts_insert_new by apply lookup_delete_eq. lia.
  - rewrite sum_counts_insert_new by done. lia.
Qed.

Lemma counts_after_step (column : row -> string) (counts counts' : gmap string Z)
    (r : row) :
  (forall k, counts' !! k
     = group_count (counts !! k) (scores_where (in_group column k) [r])) ->
  (forall k c, counts !! k = Some c -> 0 < c) ->
  sum_counts counts' = sum_counts counts + len (scores_where everyone [r]).
Proof.
  intros Hcounts Hpos. unfold in_group, everyone, len in *. simpl in *.
  destruct (converted r) as [v|]; simpl.
  - assert (Heq : counts'
              = <[column r := default 0 (counts !! column r) + 1]> counts).
    { apply map_eq. intros k. rewrite Hcounts.
      destruct (decide (column r = k)) as [<-|Hne].
      - by rewrite bool_decide_eq_true_2, lookup_insert_eq.
      - by rewrite bool_decide_eq_false_2, lookup_insert_ne. }
    rewrite Heq, sum_counts_insert. lia.
  - assert (Heq : counts' = counts).
    { apply map_eq. intros k. by rewrite Hcounts. }
    rewrite Heq. lia.
Qed.

Lemma paired_positive (totals : gmap string float) (counts : gmap string Z) :
  paired totals counts -> forall k c, counts !! k = Some c -> 0 < c.
Proof.
  intros Hp k c Hk. specialize (Hp k). rewrite Hk in Hp.
  by destruct (totals !! k).
Qed.

Lemma loop_sum_counts (df : list row) (st st' : state) :
  consistent st -> loop st df = Ok st' ->
  sum_counts (class_counts st') - overall_count st'
  = sum_counts (class_counts st) - overall_count st
  /\ sum_counts (subject_counts st') - overall_count st'
     = sum_counts (subject_counts st) - overall_count st.
Proof.
  revert st. induction df as [|r df IH]; intros st Hc; simpl.
  - by intros [= <-].
  - destruct (step st r) as [st1|] eqn:Hstep; simpl; [|done].
    intros Hloop.
    destruct (step_succeeds st r Hc (step_Ok_defined _ _ _ Hstep))
      as (st1' & Hstep' & Hc1 & _ & Hoc & _ & Hcc & _ & Hsc).
    rewrite Hstep in Hstep'. injection Hstep' as <-.
    destruct (IH _ Hc1 Hloop) as [IHc IHs].
    destruct Hc as (Hpc & Hps & _).
    pose proof (counts_after_step student_class _ _ r Hcc (paired_positive _ _ Hpc)).
    pose proof (counts_after_step subject _ _ r Hsc (paired_positive _ _ Hps)).
    lia.
Qed.

(** X16: the loop counts every valid score once overall, once in its class
    and once in its subject: when it completes, the counts of the classes add
    up to the overall count, and so do the counts of the subjects. *)
Theorem group_counts_add_up (df : list row) (st : state) :
  loop init df = Ok st ->
  sum_counts (class_counts st) = overall_count st
  /\ sum_counts (subject_counts st) = overall_count st
  /\ overall_count st = len (scores_where everyone df).
Proof.
  intros Hloop.
  destruct (loop_sum_counts _ _ _ consistent_init Hloop) as [Hc Hs].
  destruct (loop_accumulated _ _ _ consistent_init Hloop) as (_ & _ & Hoc & _).
  assert (Hempty : sum_counts ∅ = 0) by apply map_fold_empty.
  simpl in Hc, Hs, Hoc. rewrite Hempty in Hc, Hs. lia.
Qed.

Lemma group_counts_add_up_witness :
  exists st,
    loop init scenario = Ok st
    /\ sum_counts (class_counts st) = 2 /\ sum_counts (subject_counts st) = 2.
Proof.
  destruct (loop init scenario) as [st|] eqn:Hloop; [|by vm_compute in Hloop].
  destruct (group_counts_add_up scenario st Hloop) as (Hc & Hs & Ho).
  exists st. split; [reflexivity|].
  split; [exact (eq_trans Hc Ho) | exact (eq_trans Hs Ho)].
Defined.

(** ** The averages of the groups *)

(** X17: [calculate_group_average] gives, for every value of the grouping
    column, the library's mean of the Score values of the records that have
    that value, taken in the order of the records, and no entry for a value
    that no record has. *)
Theorem calculate_group_average_spec
    (series_mean : list (option float) -> float) (student_df : list graded)
    (group_column : graded -> string) (k : string) :
  Functional.calculate_group_average series_mean student_df group_column !! k
  = match List.filter (in_column group_column k) student_df with
    | [] => None
    | l => Some (series_mean (Score <$> l))
    end.
Proof.
  unfold Functional.calculate_group_average.
  rewrite lookup_fmap, groupby_lookup.
  by destruct (List.filter (in_column group_column k) student_df).
Qed.

(** ** The two scripts side by side, and the groups that have a mean *)



(** X19: the groups that have a mean.  When the imperative script
    completes, a class, or a subject, has a mean exactly when [float]
    converted the score of one of its rows, a NaN included, and the averages
    are computed without a KeyError or a division by zero.  In the functional
    script a class, or a subject, has a mean exactly when the Score of one
    of its graded records is neither [None] nor NaN. *)
Theorem group_present_iff_valid :
  (forall (df : list row) (recs : list graded) (s : summary),
     main df = Ok (recs, s) ->
     (forall k, k ∈ dom (class_averages s)
        <-> exists r, r ∈ df /\ student_class r = k /\ is_Some (converted r))
     /\ (forall k, k ∈ dom (subject_averages s)
           <-> exists r, r ∈ df /\ subject r = k /\ is_Some (converted r)))
  /\ (forall (df : list row) (st : state),
        loop init df = Ok st -> succeeds (summarize df st))
  /\ (forall (series_mean : list (option float) -> float) (df : list row)
        (res : Functional.results),
        Functional.pipeline_processing series_mean df = Ok res ->
        (forall k, k ∈ dom (class_averages (Functional.stats res))
           <-> exists g, g ∈ Functional.processed_data res /\ Class_ g = k
                         /\ Pandas.notna (Score g) = true)
        /\ (forall k, k ∈ dom (subject_averages (Functional.stats res))
              <-> exists g, g ∈ Functional.processed_data res /\ Subject g = k
                            /\ Pandas.notna (Score g) = true)).
Proof.
  split; [|split].
  - intros df recs s (st & Hloop & Hsum & _)%main_Ok.
    destruct (loop_accumulated df init st consistent_init Hloop)
      as (Hc & _ & _ & Hct & Hcc & Hst & Hsc).
    destruct (summarize_spec df st Hc) as (s' & Hs & _ & Hca & Hsa & _).
    rewrite Hsum in Hs. injection Hs as <-.
    simpl in Hct, Hcc, Hst, Hsc.
    split; intros k; rewrite elem_of_dom.
    + rewrite Hca, Hct, Hcc, !lookup_empty, group_mean_is_Some.
      rewrite scores_where_nonempty. unfold in_group.
      by setoid_rewrite bool_decide_eq_true.
    + rewrite Hsa, Hst, Hsc, !lookup_empty, group_mean_is_Some.
      rewrite scores_where_nonempty. unfold in_group.
      by setoid_rewrite bool_decide_eq_true.
  - intros df st Hloop.
    destruct (loop_accumulated df init st consistent_init Hloop) as (Hc & _).
    destruct (summarize_spec df st Hc) as (s & Hs & _). by exists s.
  - intros series_mean df res. unfold Functional.pipeline_processing.
    destruct (Functional.add_grade_column df) as [p|]; [|done].
    simpl. intros [= <-]. simpl. unfold Functional.calculate_group_average.
    assert (Hvalid : forall g, g ∈ Functional.filter_valid_scores p
              <-> g ∈ p /\ Pandas.notna (Score g) = true).
    { intros g. unfold Functional.filter_valid_scores.
      rewrite !list_elem_of_In. apply filter_In. }
    split; intros k; rewrite dom_fmap, groupby_dom; split.
    all: try (intros (g & Hg & Hk); apply Hvalid in Hg as [Hg Hn]; by eauto).
    all: intros (g & Hg & Hk & Hn); exists g; split; [by apply Hvalid | done].
Qed.

Lemma group_present_iff_valid_witness :
  exists recs s,
    main scenario = Ok (recs, s)
    /\ "A" ∈ dom (class_averages s) /\ "B" ∉ dom (class_averages s).
Proof.
  destruct (main scenario) as [[recs s]|] eqn:Hmain; [|by vm_compute in Hmain].
  destruct group_present_iff_valid as [Himp _].
  destruct (Himp scenario recs s Hmain) as [Hclass _].
  exists recs, s. split; [done|]. split.
  - apply Hclass. exists (Row "Ann" "A" "Science" (Str "90")).
    split; [by left|]. split; [done|]. by eexists.
  - intros (r & Hr & Hk & Hv)%Hclass.
    apply list_elem_of_In in Hr.
    destruct Hr as [<-|[<-|[<-|[]]]]; try discriminate Hk.
    destruct Hv as [v Hv]. discriminate Hv.
Defined.
